(** * Offline-AI-Chat: the chat page and its inference bridge

    A shallow embedding of [src/page.tsx] (the [ChatInterface] component: its
    state hooks and the handlers [sendMessage], [handleSubmit], [clearChat],
    [checkOllamaConnection], [loadModels]) and of [src/route.ts] (the [POST]
    handler of the chat route), and the properties of the specification
    stated over them.

    Both files are asynchronous JavaScript.  A handler is embedded as a
    finite tree of effects ([prog]): every [await], every state setter and
    every clock read is a node whose answer comes from outside, so that
    what runs before an [await], what runs after it, and what other handlers
    do in between are all visible. *)

From Stdlib Require Import List ZArith NArith Bool Lia String Ascii.
From Stdlib Require Import DecimalString.
From Stdlib Require DecimalZ DecimalPos.
From Stdlib Require Import Floats.
Import ListNotations.

Set Warnings "-register-all,-inexact-float".
Local Open Scope Z_scope.

(* ================================================================= *)
(** ** JavaScript strings *)

(** A JavaScript string is a sequence of UTF-16 code units. *)
Definition code_unit := N.
Definition jsstring := list code_unit.

(** String literals of the sources are ASCII; [lit] gives their code units. *)
Definition lit (s : string) : jsstring :=
  List.map N_of_ascii (list_ascii_of_string s).

(** ECMAScript [WhiteSpace] and [LineTerminator] code points: what
    [String.prototype.trim] strips.  All of them are in the basic plane,
    so the test is on single code units. *)
Definition is_white_space (c : code_unit) : bool :=
  (  (c =? 0x09) || (c =? 0x0A) || (c =? 0x0B) || (c =? 0x0C) || (c =? 0x0D)
  || (c =? 0x20) || (c =? 0xA0) || (c =? 0x1680)
  || ((0x2000 <=? c) && (c <=? 0x200A))
  || (c =? 0x2028) || (c =? 0x2029) || (c =? 0x202F) || (c =? 0x205F)
  || (c =? 0x3000) || (c =? 0xFEFF))%N.

Fixpoint trimStart (s : jsstring) : jsstring :=
  match s with
  | [] => []
  | c :: s' => if is_white_space c then trimStart s' else s
  end.

Definition trimEnd (s : jsstring) : jsstring := rev (trimStart (rev s)).

(** [s.trim()] *)
Definition trim (s : jsstring) : jsstring := trimEnd (trimStart s).

(** "consists only of whitespace" (the empty string included). *)
Definition whitespace_only (s : jsstring) : bool := forallb is_white_space s.

(** [n.toString()] for an integral number below 1e21 in magnitude (every
    value of [Date.now()] and every HTTP status is one): decimal digits,
    with a leading minus sign. *)
Definition number_toString (n : Z) : jsstring :=
  lit (NilZero.string_of_int (Z.to_int n)).

(* ================================================================= *)
(** ** JavaScript values *)

(** The values that [JSON.parse] produces, and [undefined], which a
    property read produces.  An object is the list of its own properties. *)
Inductive value : Type :=
| VUndefined
| VNull
| VBool (b : bool)
| VNumber (x : float)
| VString (s : jsstring)
| VArray (items : list value)
| VObject (props : list (jsstring * value)).

Definition jsstring_eqb (a b : jsstring) : bool :=
  if list_eq_dec N.eq_dec a b then true else false.

Fixpoint lookup (key : jsstring) (props : list (jsstring * value)) : value :=
  match props with
  | [] => VUndefined
  | (k, v) :: rest => if jsstring_eqb k key then v else lookup key rest
  end.

(** ToBoolean: what [!v] and [v || w] test. *)
Definition truthy (v : value) : bool :=
  match v with
  | VUndefined | VNull => false
  | VBool b => b
  | VNumber x => negb (PrimFloat.is_zero x || PrimFloat.is_nan x)
  | VString s => match s with [] => false | _ :: _ => true end
  | VArray _ | VObject _ => true
  end.

(** [a || b] *)
Definition js_or (a b : value) : value := if truthy a then a else b.

(** What a handler can throw or a promise reject with. *)
Inductive exn : Type :=
| Error (message : jsstring)
| TypeError (message : jsstring)
| SyntaxError (message : jsstring).

Definition result (A : Type) : Type := (A + exn)%type.

(** [v.key] for one of the keys the sources read ("message", "model",
    "response", "models"): none of them is defined on a built-in prototype,
    so only an object's own property can answer; reading a property of
    [null] or [undefined] throws. *)
Definition get (v : value) (key : jsstring) : result value :=
  match v with
  | VUndefined | VNull => inr (TypeError (lit "Cannot read properties of null or undefined"))
  | VObject props => inl (lookup key props)
  | _ => inl VUndefined
  end.

(* ================================================================= *)
(** ** The Fetch API as the sources use it *)

(** A [Response]: the sources read [ok] and [status], and await [text()]
    or [json()], whose outcome is an answer of the environment. *)
Record Response : Type := { status : Z }.

(** [response.ok]: the status is in the range 200-299. *)
Definition ok (r : Response) : bool := (200 <=? status r) && (status r <=? 299).

(** The [init] argument of [fetch]; [body] holds the value that the source
    hands to [JSON.stringify] ([None]: no body, a GET). *)
Record RequestInit : Type := {
  method : jsstring;
  headers : list (jsstring * jsstring);
  body : option value
}.

(* ================================================================= *)
(** ** Effect trees *)

(** A computation over the effects [E] returning an [A]: it returns, throws,
    or performs an effect and goes on with its answer. *)
Inductive prog (E : Type -> Type) (A : Type) : Type :=
| Ret (a : A)
| Throw (e : exn)
| Vis (X : Type) (ev : E X) (k : X -> prog E A).

Arguments Ret {E A} a.
Arguments Throw {E A} e.
Arguments Vis {E A X} ev k.

Fixpoint bind {E A B} (p : prog E A) (f : A -> prog E B) : prog E B :=
  match p with
  | Ret a => f a
  | Throw e => Throw e
  | Vis ev k => Vis ev (fun x => bind (k x) f)
  end.

(** [try { p } catch (error) { h error }] *)
Fixpoint try_catch {E A} (p : prog E A) (h : exn -> prog E A) : prog E A :=
  match p with
  | Ret a => Ret a
  | Throw e => h e
  | Vis ev k => Vis ev (fun x => try_catch (k x) h)
  end.

(** [try { p } finally { f }], for an [f] that neither returns a value of
    its own nor is left by [return]. *)
Fixpoint try_finally {E A} (p : prog E A) (f : prog E unit) : prog E A :=
  match p with
  | Ret a => bind f (fun _ => Ret a)
  | Throw e => bind f (fun _ => Throw e)
  | Vis ev k => Vis ev (fun x => try_finally (k x) f)
  end.

(** An effect performed for its answer. *)
Definition perform {E X} (ev : E X) : prog E X := Vis ev (fun x => Ret x).

(** [await] of a promise that the environment settles: a fulfilled promise
    gives its value, a rejected one throws. *)
Definition await {E X} (ev : E (result X)) : prog E X :=
  Vis ev (fun r => match r with inl x => Ret x | inr e => Throw e end).

(** A step that throws synchronously or gives a value. *)
Definition lift {E A} (r : result A) : prog E A :=
  match r with inl a => Ret a | inr e => Throw e end.

Declare Scope prog_scope.
Delimit Scope prog_scope with prog.
Notation "x <- p ;; q" := (bind p (fun x => q))
  (at level 61, p at next level, right associativity) : prog_scope.
Notation "p ;; q" := (bind p (fun _ => q))
  (at level 61, right associativity) : prog_scope.

(* ================================================================= *)
(** ** Template literals and console output *)

(** Whether ToString of a value completes.  It does for primitives.  For an
    object its own [toString] property, when there is one, shadows
    [Object.prototype.toString]; no JSON value is callable, [valueOf] then
    gives back the object, and the conversion throws a TypeError.  An array
    is joined: [null] and [undefined] items give the empty string, the
    other items are converted in turn. *)
Fixpoint ToString_completes (v : value) : bool :=
  match v with
  | VObject props =>
      negb (existsb (fun kv => jsstring_eqb (fst kv) (lit "toString")) props)
  | VArray items => forallb ToString_completes items
  | _ => true
  end.

(** An argument of [console.log] or [console.error], or a piece of a
    template literal: literal text, a substituted value, a caught error. *)
Inductive log_arg : Type :=
| Text (s : jsstring)
| Subst (v : value)
| Thrown (e : exn).

(** Evaluating the template literal [`text${v}`]. *)
Definition template (text : jsstring) (v : value) : result (list log_arg) :=
  if ToString_completes v then inl [Text text; Subst v]
  else inr (TypeError (lit "Cannot convert object to primitive value")).

(* ================================================================= *)
(** ** JSON on the wire *)

(** What [JSON.stringify] writes for a number and [JSON.parse] reads back:
    a number that is not finite is written as [null], and the sign of
    zero is not written; every other number is read back as it was. *)
Definition wire_number (x : float) : value :=
  if PrimFloat.is_nan x || PrimFloat.is_infinity x then VNull
  else if PrimFloat.is_zero x then VNumber 0
  else VNumber x.

(** [JSON.parse(JSON.stringify(v))]: the value that the reader of a JSON
    text gets for the value [v] that was written.  No value here has a
    callable [toJSON].  In an array [undefined] is written as [null]; a
    property whose value is [undefined] is not written; for [undefined]
    itself no text is written.  Strings are read back code unit by code
    unit.  (The properties of an object are listed in the order in which
    they are enumerated, which is the order in which they are written.) *)
Fixpoint wire (v : value) : value :=
  match v with
  | VUndefined => VUndefined
  | VNull => VNull
  | VBool b => VBool b
  | VNumber x => wire_number x
  | VString s => VString s
  | VArray items =>
      VArray (List.map (fun item =>
                          match item with
                          | VUndefined => VNull
                          | _ => wire item
                          end) items)
  | VObject props =>
      VObject ((fix written (ps : list (jsstring * value)) :=
                  match ps with
                  | [] => []
                  | (k, x) :: rest =>
                      match x with
                      | VUndefined => written rest
                      | _ => (k, wire x) :: written rest
                      end
                  end) props)
  end.

(* ================================================================= *)
(** ** The inference bridge: [src/route.ts] *)

Module Bridge.

Local Open Scope prog_scope.

(** What the handler asks of its environment. *)
Inductive effect : Type -> Type :=
| RequestJson : effect (result value)                 (* request.json() *)
| Fetch (url : jsstring) (init : RequestInit) : effect (result Response)
| ResponseText (r : Response) : effect (result jsstring)   (* r.text() *)
| ResponseJson (r : Response) : effect (result value)      (* r.json() *)
| ConsoleLog (args : list log_arg) : effect unit
| ConsoleError (args : list log_arg) : effect unit.

(** What [NextResponse.json(body, { status })] builds: [payload] is the
    value [body] that the handler hands over; [sent] below is what a client
    reads. *)
Record NextResponse : Type := { http_status : Z; payload : value }.

Definition NextResponse_json (body : value) (init : option Z) : NextResponse :=
  {| http_status := match init with Some s => s | None => 200 end;
     payload := body |}.

(** The body of an answer as a client parses it: [NextResponse.json]
    writes the payload with [JSON.stringify]. *)
Definition sent (res : NextResponse) : value := wire (payload res).

Definition default_model : jsstring := lit "llama3:latest".
Definition generate_url : jsstring := lit "http://localhost:11434/api/generate".
Definition message_required : jsstring := lit "Message is required".
Definition no_response : jsstring := lit "No response received from the model".
Definition failed_to_process : jsstring :=
  lit "Failed to process your request. Make sure Ollama is running and the model is available.".

(** [const { message, model = "llama3:latest" } = v]: a TypeError on
    [null]; the default stands in for an [undefined] model only. *)
Definition model_or_default (model : value) : value :=
  match model with
  | VUndefined => VString default_model
  | _ => model
  end.

Definition destructure (v : value) : result (value * value) :=
  match get v (lit "message"), get v (lit "model") with
  | inl message, inl model => inl (message, model_or_default model)
  | inr e, _ => inr e
  | _, inr e => inr e
  end.

(** The body handed to [JSON.stringify] for the upstream call. *)
Definition generate_body (model message : value) : value :=
  VObject
    [ (lit "model", model);
      (lit "prompt", message);
      (lit "stream", VBool false);
      (lit "options",
        VObject [ (lit "temperature", VNumber 0.7);
                  (lit "top_p", VNumber 0.9);
                  (lit "top_k", VNumber 40) ]) ].
(* The numerals denote, as in JavaScript, the nearest binary64 numbers. *)

Definition generate_init (model message : value) : RequestInit :=
  {| method := lit "POST";
     headers := [ (lit "Content-Type", lit "application/json") ];
     body := Some (generate_body model message) |}.

Definition POST : prog effect NextResponse :=
  try_catch
    (json <- await RequestJson ;;
     mm <- lift (destructure json) ;;
     let '(message, model) := mm in
     if negb (truthy message) then
       Ret (NextResponse_json
              (VObject [ (lit "error", VString message_required) ]) (Some 400))
     else
       l1 <- lift (template (lit "Using model: ") model) ;;
       perform (ConsoleLog l1) ;;
       l2 <- lift (template (lit "User message: ") message) ;;
       perform (ConsoleLog l2) ;;
       response <- await (Fetch generate_url (generate_init model message)) ;;
       (if negb (ok response) then
          errorText <- await (ResponseText response) ;;
          perform (ConsoleError [Text (lit "Ollama API error:"); Text errorText]) ;;
          Throw (Error (lit "Ollama API error: "
                        ++ number_toString (status response)))
        else Ret tt) ;;
       data <- await (ResponseJson response) ;;
       perform (ConsoleLog [Text (lit "Ollama response received")]) ;;
       generated <- lift (get data (lit "response")) ;;
       Ret (NextResponse_json
              (VObject [ (lit "response",
                          js_or generated (VString no_response)) ]) None))
    (fun error =>
       perform (ConsoleError [Text (lit "Chat API error:"); Thrown error]) ;;
       Ret (NextResponse_json
              (VObject [ (lit "error", VString failed_to_process) ]) (Some 500))).

(** The environment of one invocation: the body of the incoming request
    and the upstream server's behaviour. *)
Record Env : Type := {
  request_json : result value;
  upstream : jsstring -> RequestInit -> result Response;
  response_text : Response -> result jsstring;
  response_json : Response -> result value
}.

Definition answer (env : Env) {X} (ev : effect X) : X :=
  match ev in effect X return X with
  | RequestJson => request_json env
  | Fetch url init => upstream env url init
  | ResponseText r => response_text env r
  | ResponseJson r => response_json env r
  | ConsoleLog _ => tt
  | ConsoleError _ => tt
  end.

(** The outbound network calls an effect makes. *)
Definition calls_of {X} (ev : effect X) : list (jsstring * RequestInit) :=
  match ev with
  | Fetch url init => [(url, init)]
  | _ => []
  end.

(** Running a handler in an environment: its outcome and the outbound
    calls it made, in order. *)
Fixpoint run {A} (env : Env) (p : prog effect A)
  : result A * list (jsstring * RequestInit) :=
  match p with
  | Ret a => (inl a, [])
  | Throw e => (inr e, [])
  | Vis ev k =>
      let '(r, calls) := run env (k (answer env ev)) in
      (r, calls_of ev ++ calls)
  end.

(** The [message] of a request, [undefined] when there is none to read:
    the body has no such property, is not an object, is [null], or the
    request has no body that is JSON. *)
Definition message_of (request : result value) : value :=
  match request with
  | inl body =>
      match get body (lit "message") with
      | inl message => message
      | inr _ => VUndefined
      end
  | inr _ => VUndefined
  end.

(** Whether the first statement of the handler completes: [request.json()]
    gives a value and the destructuring does not throw. *)
Definition readable (request : result value) : bool :=
  match request with
  | inl body =>
      match destructure body with
      | inl _ => true
      | inr _ => false
      end
  | inr _ => false
  end.

(** A request that passes validation and reaches the upstream call: its
    body has a truthy [message], and the two template literals that are
    logged before the call can be evaluated.  [model] is the [model]
    property of the body, [undefined] when there is none. *)
Definition accepted (body message model : value) : Prop :=
  get body (lit "message") = inl message /\
  get body (lit "model") = inl model /\
  truthy message = true /\
  ToString_completes (model_or_default model) = true /\
  ToString_completes message = true.

End Bridge.

(* ================================================================= *)
(** ** The chat session: [src/page.tsx] *)

Module Session.

Local Open Scope prog_scope.

Inductive Role : Type := user | assistant.

(** A [Date] object, as its time value in milliseconds. *)
Definition Date := Z.

(** [content] is declared a string; an assistant message takes it from
    [data.response], whatever that value is. *)
Record Message : Type := {
  id : jsstring;
  content : value;
  role : Role;
  timestamp : Date
}.

(** The state hooks of [ChatInterface].  [models] is whatever
    [data.models] was in the reply of the models route. *)
Record State : Type := {
  messages : list Message;
  input : jsstring;
  isLoading : bool;
  isConnected : bool;
  models : value;
  selectedModel : jsstring
}.

Definition initial_state : State :=
  {| messages := [];
     input := [];
     isLoading := false;
     isConnected := false;
     models := VArray [];
     selectedModel := lit "llama3:latest" |}.

(** What a handler does to the component and asks of its environment.
    A setter takes an updater; setting a value is the constant updater. *)
Inductive effect : Type -> Type :=
| SetMessages (f : list Message -> list Message) : effect unit
| SetInput (v : jsstring) : effect unit
| SetIsLoading (b : bool) : effect unit
| SetIsConnected (b : bool) : effect unit
| SetModels (v : value) : effect unit
| DateNow : effect Z                                       (* Date.now() *)
| NewDate : effect Date                                    (* new Date() *)
| Fetch (url : jsstring) (init : option RequestInit) : effect (result Response)
| ResponseJson (r : Response) : effect (result value)      (* r.json() *)
| ConsoleError (args : list log_arg) : effect unit.

Definition fallback_text : jsstring :=
  lit "Sorry, I encountered an error. Please make sure Ollama is running locally.".

Definition chat_url : jsstring := lit "/api/chat".

(** The [init] of the call to the chat route. *)
Definition chat_init (content selectedModel : jsstring) : RequestInit :=
  {| method := lit "POST";
     headers := [ (lit "Content-Type", lit "application/json") ];
     body := Some (VObject [ (lit "message", VString content);
                             (lit "model", VString selectedModel) ]) |}.

(** [messageContent || input.trim()]: a missing or empty argument is
    falsy. *)
Definition content_of (messageContent : option jsstring) (input : jsstring)
  : jsstring :=
  match messageContent with
  | Some (c :: rest) => c :: rest
  | _ => trim input
  end.

Definition is_empty (s : jsstring) : bool :=
  match s with [] => true | _ :: _ => false end.

(** [sendMessage], as the render that saw the state [s] defines it:
    [input], [isLoading] and [selectedModel] are the values of that
    render, the setters act on the component whenever they run. *)
Definition sendMessage (s : State) (messageContent : option jsstring)
  : prog effect unit :=
  let content := content_of messageContent (input s) in
  if is_empty content || isLoading s then Ret tt
  else
    now <- perform DateNow ;;
    date <- perform NewDate ;;
    let userMessage :=
      {| id := number_toString now;
         content := VString content;
         role := user;
         timestamp := date |} in
    perform (SetMessages (fun prev => prev ++ [userMessage])) ;;
    perform (SetInput []) ;;
    perform (SetIsLoading true) ;;
    try_finally
      (try_catch
         (response <- await (Fetch chat_url
                               (Some (chat_init content (selectedModel s)))) ;;
          (if negb (ok response)
           then Throw (Error (lit "Failed to get response"))
           else Ret tt) ;;
          data <- await (ResponseJson response) ;;
          now <- perform DateNow ;;
          generated <- lift (get data (lit "response")) ;;
          date <- perform NewDate ;;
          let assistantMessage :=
            {| id := number_toString (now + 1);
               content := generated;
               role := assistant;
               timestamp := date |} in
          perform (SetMessages (fun prev => prev ++ [assistantMessage])))
         (fun error =>
            now <- perform DateNow ;;
            date <- perform NewDate ;;
            let errorMessage :=
              {| id := number_toString (now + 1);
                 content := VString fallback_text;
                 role := assistant;
                 timestamp := date |} in
            perform (SetMessages (fun prev => prev ++ [errorMessage]))))
      (perform (SetIsLoading false)).

(** [handleSubmit]: the form's submit handler ([preventDefault] has no
    effect on the component). *)
Definition handleSubmit (s : State) : prog effect unit := sendMessage s None.

Definition clearChat : prog effect unit :=
  perform (SetMessages (fun _ => [])).

Definition checkOllamaConnection : prog effect unit :=
  try_catch
    (response <- await (Fetch (lit "/api/health") None) ;;
     perform (SetIsConnected (ok response)))
    (fun error => perform (SetIsConnected false)).

Definition loadModels : prog effect unit :=
  try_catch
    (response <- await (Fetch (lit "/api/models") None) ;;
     if ok response then
       data <- await (ResponseJson response) ;;
       loaded <- lift (get data (lit "models")) ;;
       perform (SetModels loaded)
     else Ret tt)
    (fun error =>
       perform (ConsoleError [Text (lit "Failed to load models:"); Thrown error])).

(** The three messages that [sendMessage] builds, from the clock reads
    that go into them. *)
Definition user_message (now : Z) (content : jsstring) (date : Date) : Message :=
  {| id := number_toString now; content := VString content;
     role := user; timestamp := date |}.

Definition assistant_message (now : Z) (generated : value) (date : Date) : Message :=
  {| id := number_toString (now + 1); content := generated;
     role := assistant; timestamp := date |}.

Definition error_message (now : Z) (date : Date) : Message :=
  {| id := number_toString (now + 1); content := VString fallback_text;
     role := assistant; timestamp := date |}.

(* --------------------------------------------------------------- *)
(** *** The component as a machine *)

(** A handler that is suspended at an [await]. *)
Inductive Suspended : Type :=
| OnFetch (url : jsstring) (init : option RequestInit)
          (k : result Response -> prog effect unit)
| OnJson (r : Response) (k : result value -> prog effect unit).

(** Which handler a suspended computation belongs to. *)
Inductive Origin : Type := Chat | Health | Models.

Record Task : Type := { origin : Origin; waiting : Suspended }.

(** The component between two events: its state, the number of clock
    reads so far, and the handlers waiting for the network, oldest
    first. *)
Record Machine : Type := {
  state : State;
  reads : nat;
  inflight : list Task
}.

Definition initial : Machine :=
  {| state := initial_state; reads := 0; inflight := [] |}.

Definition set_messages (f : list Message -> list Message) (s : State) : State :=
  {| messages := f (messages s); input := input s; isLoading := isLoading s;
     isConnected := isConnected s; models := models s;
     selectedModel := selectedModel s |}.

Definition set_input (v : jsstring) (s : State) : State :=
  {| messages := messages s; input := v; isLoading := isLoading s;
     isConnected := isConnected s; models := models s;
     selectedModel := selectedModel s |}.

Definition set_isLoading (b : bool) (s : State) : State :=
  {| messages := messages s; input := input s; isLoading := b;
     isConnected := isConnected s; models := models s;
     selectedModel := selectedModel s |}.

Definition set_isConnected (b : bool) (s : State) : State :=
  {| messages := messages s; input := input s; isLoading := isLoading s;
     isConnected := b; models := models s;
     selectedModel := selectedModel s |}.

Definition set_models (v : value) (s : State) : State :=
  {| messages := messages s; input := input s; isLoading := isLoading s;
     isConnected := isConnected s; models := v;
     selectedModel := selectedModel s |}.

Definition set_selectedModel (m : jsstring) (s : State) : State :=
  {| messages := messages s; input := input s; isLoading := isLoading s;
     isConnected := isConnected s; models := models s;
     selectedModel := m |}.

(** What the network answers to a suspended handler. *)
Inductive Answer : Type :=
| Fetched (r : result Response)
| Parsed (r : result value).

(** What happens to the component.  The page itself sends only the
    suggested prompts through [Send]; and it offers the form, the cards and
    the Clear Chat button only in some states (the submit button is
    disabled while loading, disconnected or blank).  The machine takes
    every event in every state. *)
Inductive Event : Type :=
| Mount                                 (* the mount effect *)
| Change (v : jsstring)                 (* typing: onChange *)
| Select (m : jsstring)                 (* the model selector *)
| Submit                                (* the form: handleSubmit *)
| Send (messageContent : option jsstring)   (* sendMessage(messageContent) *)
| Clear                                 (* the Clear Chat button *)
| Settle (i : nat) (a : Answer).        (* the i-th waiting call settles *)

Section Clock.

(** The clock: the n-th read of the time, by [Date.now()] or
    [new Date()], gives [clock n]. *)
Variable clock : nat -> Z.

(** Runs a handler until it ends or suspends at an [await].  The
    setters act on the state of the component as it is when they run.
    (A handler left by an exception ends: an unhandled rejection.) *)
Fixpoint advance (p : prog effect unit) (s : State) (n : nat)
  : State * nat * option Suspended :=
  match p with
  | Ret _ => (s, n, None)
  | Throw _ => (s, n, None)
  | Vis ev k =>
      match ev in effect X return (X -> prog effect unit) -> _ with
      | SetMessages f => fun k => advance (k tt) (set_messages f s) n
      | SetInput v => fun k => advance (k tt) (set_input v s) n
      | SetIsLoading b => fun k => advance (k tt) (set_isLoading b s) n
      | SetIsConnected b => fun k => advance (k tt) (set_isConnected b s) n
      | SetModels v => fun k => advance (k tt) (set_models v s) n
      | DateNow => fun k => advance (k (clock n)) s (S n)
      | NewDate => fun k => advance (k (clock n)) s (S n)
      | Fetch url init => fun k => (s, n, Some (OnFetch url init k))
      | ResponseJson r => fun k => (s, n, Some (OnJson r k))
      | ConsoleError _ => fun k => advance (k tt) s n
      end k
  end.

(** Starts the handler [p] on the machine. *)
Definition invoke (o : Origin) (p : prog effect unit) (m : Machine) : Machine :=
  match advance p (state m) (reads m) with
  | (s, n, None) => {| state := s; reads := n; inflight := inflight m |}
  | (s, n, Some t) =>
      {| state := s; reads := n;
         inflight := inflight m ++ [ {| origin := o; waiting := t |} ] |}
  end.

(** The handler goes on with the answer it was waiting for. *)
Definition resume (t : Suspended) (a : Answer) : option (prog effect unit) :=
  match t, a with
  | OnFetch _ _ k, Fetched r => Some (k r)
  | OnJson _ k, Parsed r => Some (k r)
  | _, _ => None
  end.

Definition settle (i : nat) (a : Answer) (m : Machine) : Machine :=
  match nth_error (inflight m) i with
  | Some t =>
      match resume (waiting t) a with
      | Some p =>
          match advance p (state m) (reads m) with
          | (s, n, None) =>
              {| state := s; reads := n;
                 inflight := firstn i (inflight m) ++ skipn (S i) (inflight m) |}
          | (s, n, Some w) =>
              {| state := s; reads := n;
                 inflight := firstn i (inflight m)
                             ++ {| origin := origin t; waiting := w |}
                             :: skipn (S i) (inflight m) |}
          end
      | None => m
      end
  | None => m
  end.

(** One event.  The handler that runs is the one defined by the latest
    render, the render of the current state: the setters of a handler are
    called within the event and the page is rendered again before the next
    one.  ([clearChat] never waits, so the origin given for it is not
    used.) *)
Definition step (m : Machine) (e : Event) : Machine :=
  match e with
  | Mount => invoke Models loadModels (invoke Health checkOllamaConnection m)
  | Change v =>
      {| state := set_input v (state m); reads := reads m; inflight := inflight m |}
  | Select sel =>
      {| state := set_selectedModel sel (state m); reads := reads m;
         inflight := inflight m |}
  | Submit => invoke Chat (handleSubmit (state m)) m
  | Send messageContent => invoke Chat (sendMessage (state m) messageContent) m
  | Clear => invoke Chat clearChat m
  | Settle i a => settle i a m
  end.

Definition steps (m : Machine) (es : list Event) : Machine :=
  fold_left step es m.

(** The state after [setMessages((prev) => [...prev, msg])]. *)
Definition appended (msg : Message) (s : State) : State :=
  set_messages (fun prev => prev ++ [msg]) s.

(** The assistant message that answers the body [a] of a successful
    reply, when the clock has been read [n] times: the generated text,
    or the fallback when the body cannot be parsed or is [null] (the
    failed read of [data.response] comes after one more clock read). *)
Definition reply_to (a : result value) (n : nat) : Message :=
  match a with
  | inl data =>
      match get data (lit "response") with
      | inl generated => assistant_message (clock n) generated (clock (S n))
      | inr _ => error_message (clock (S n)) (clock (S (S n)))
      end
  | inr _ => error_message (clock n) (clock (S n))
  end.

(** A continuation that waits for the body of the reply: whatever the
    body, it appends the answering message, clears [isLoading] and
    ends. *)
Definition awaiting_body (k : result value -> prog effect unit) : Prop :=
  forall a s n, exists n',
    advance (k a) s n = (set_isLoading false (appended (reply_to a n) s), n', None).

(** A continuation that waits for the reply of the chat route: on a
    rejection or a non-success status it appends the fallback message,
    clears [isLoading] and ends; on a success it waits for the body. *)
Definition awaiting_reply (k : result Response -> prog effect unit) : Prop :=
  forall a s n,
    match a with
    | inl r =>
        if ok r then
          exists k2,
            advance (k a) s n = (s, n, Some (OnJson r k2)) /\ awaiting_body k2
        else
          advance (k a) s n =
            (set_isLoading false
               (appended (error_message (clock n) (clock (S n))) s),
             S (S n), None)
    | inr _ =>
        advance (k a) s n =
          (set_isLoading false
             (appended (error_message (clock n) (clock (S n))) s),
           S (S n), None)
    end.

(** A waiting handler that, in at most [d] further awaits, ends, and
    that leaves [isLoading] as it is until it ends; only a call to the
    chat route may change [isLoading] when it ends. *)
Fixpoint keeps_loading (d : nat) (o : Origin) (t : Suspended) {struct d} : Prop :=
  forall a p, resume t a = Some p -> forall s n,
    match advance p s n with
    | (s', _, None) => o = Chat \/ isLoading s' = isLoading s
    | (s', _, Some t') =>
        isLoading s' = isLoading s /\
        match d with
        | O => False
        | S d' => keeps_loading d' o t'
        end
    end.

Definition is_chat (t : Task) : bool :=
  match origin t with Chat => true | _ => false end.

(** The calls to the chat route that are waiting for an answer. *)
Definition chat_calls (m : Machine) : list Task :=
  filter is_chat (inflight m).

(** The invariant of the component: every waiting handler keeps
    [isLoading], a waiting call to the chat route implies [isLoading],
    and there is at most one such call. *)
Definition one_in_flight (m : Machine) : Prop :=
  (forall t, In t (inflight m) ->
             exists d, keeps_loading d (origin t) (waiting t)) /\
  (isLoading (state m) = true \/ chat_calls m = []) /\
  (List.length (chat_calls m) <= 1)%nat.

End Clock.

End Session.

(* ================================================================= *)
(** ** Example inputs *)

Module Examples.

(** A clock that starts at 1000 and advances by one at every read. *)
Definition clock (n : nat) : Z := 1000 + Z.of_nat n.

Definition hello : value := VObject [ (lit "response", VString (lit "hello")) ].

(** A request [{message: "hi", model: "llama3:latest"}] and an upstream
    that replies 200 with [{response: "hello"}]. *)
Definition env_hi : Bridge.Env :=
  {| Bridge.request_json :=
       inl (VObject [ (lit "message", VString (lit "hi"));
                      (lit "model", VString (lit "llama3:latest")) ]);
     Bridge.upstream := fun _ _ => inl {| status := 200 |};
     Bridge.response_text := fun _ => inl (lit "{}");
     Bridge.response_json := fun _ => inl hello |}.

(** The request [{message: ""}]. *)
Definition env_empty_message : Bridge.Env :=
  {| Bridge.request_json := inl (VObject [ (lit "message", VString []) ]);
     Bridge.upstream := fun _ _ => inl {| status := 200 |};
     Bridge.response_text := fun _ => inl (lit "{}");
     Bridge.response_json := fun _ => inl hello |}.

(** The request [{message: "hi"}] and an upstream that replies 200 with
    [{response: ""}]. *)
Definition empty_reply : value := VObject [ (lit "response", VString []) ].

Definition env_empty_reply : Bridge.Env :=
  {| Bridge.request_json := inl (VObject [ (lit "message", VString (lit "hi")) ]);
     Bridge.upstream := fun _ _ => inl {| status := 200 |};
     Bridge.response_text := fun _ => inl (lit "{}");
     Bridge.response_json := fun _ => inl empty_reply |}.

(** The request [{message: "hi"}] and an upstream that replies 404 with
    the text "model not found". *)
Definition env_not_found : Bridge.Env :=
  {| Bridge.request_json := inl (VObject [ (lit "message", VString (lit "hi")) ]);
     Bridge.upstream := fun _ _ => inl {| status := 404 |};
     Bridge.response_text := fun _ => inl (lit "model not found");
     Bridge.response_json := fun _ => inr (SyntaxError (lit "Unexpected token")) |}.

(** The page after " hi " was typed into the input. *)
Definition typed_hi : Session.Machine :=
  Session.step clock Session.initial (Session.Change (lit " hi ")).

(** The page while a call to the chat route is waiting. *)
Definition waiting : Session.Machine :=
  Session.step clock typed_hi (Session.Send None).

(** The page after the route answered 200 with [{response: "hello"}]. *)
Definition answered : Session.Machine :=
  Session.steps clock waiting
    [ Session.Settle 0 (Session.Fetched (inl {| status := 200 |}));
      Session.Settle 0 (Session.Parsed (inl hello)) ].

(** The page after only blanks were typed into the input. *)
Definition typed_blanks : Session.Machine :=
  Session.step clock Session.initial (Session.Change (lit "   ")).

End Examples.

(* ================================================================= *)
(** ** What the page shows: the rest of [src/page.tsx] *)

Module View.

Import Session.

(** An entry of [SUGGESTED_PROMPTS]: its [icon] is a component of the icon
    library and plays no part in what the handlers do. *)
Record Prompt : Type := { title : jsstring; prompt : jsstring }.

Definition SUGGESTED_PROMPTS : list Prompt :=
  [ {| title := lit "Code Review";
       prompt := lit "Review this code and suggest improvements for better performance and readability" |};
    {| title := lit "Documentation";
       prompt := lit "Help me write comprehensive documentation for this project" |};
    {| title := lit "Problem Solving";
       prompt := lit "I need help solving a complex technical problem. Can you guide me through it?" |};
    {| title := lit "Optimization";
       prompt := lit "How can I optimize this system for better performance and scalability?" |} ].

(** The conditions of the returned markup, each as the render of the state
    [s] evaluates it. *)

(** [messages.length > 0 && <Button onClick={clearChat}>]. *)
Definition clearButton (s : State) : bool :=
  (0 <? List.length (messages s))%nat.

(** [messages.length === 0 && ...]: the welcome section, which holds the
    cards of the suggested prompts. *)
Definition welcome (s : State) : bool :=
  (List.length (messages s) =? 0)%nat.

(** [messages.length > 0 && <Card>]: the card that lists the messages. *)
Definition transcript (s : State) : bool :=
  (0 <? List.length (messages s))%nat.

(** [isLoading && ...]: the three bouncing dots.  They are a child of the
    card that lists the messages. *)
Definition spinner (s : State) : bool := transcript s && isLoading s.

(** [disabled={isLoading || !isConnected}] of the input. *)
Definition inputDisabled (s : State) : bool :=
  isLoading s || negb (isConnected s).

(** [disabled={isLoading || !input.trim() || !isConnected}] of the submit
    button. *)
Definition submitDisabled (s : State) : bool :=
  isLoading s || is_empty (trim (input s)) || negb (isConnected s).

(** [!isConnected && ...]: the warning under the form. *)
Definition warning (s : State) : bool := negb (isConnected s).

(** The text of the badge. *)
Definition badge (s : State) : jsstring :=
  if isConnected s then lit "Connected" else lit "Disconnected".

End View.

(* ================================================================= *)
(** ** The tasks of a running page *)

Module Reach.

Import Session.

Section Clock.

Variable clock : nat -> Z.

(** A continuation of [checkOllamaConnection] that waits for the health
    route: [isConnected] becomes the [ok] of the reply, or false when the
    call is rejected, and the handler ends. *)
Definition awaiting_health (k : result Response -> prog effect unit) : Prop :=
  forall a s n,
    advance clock (k a) s n =
      (set_isConnected (match a with inl r => ok r | inr _ => false end) s,
       n, None).

(** The state after the body [a] of the models route was read. *)
Definition models_loaded (a : result value) (s : State) : State :=
  match a with
  | inl data =>
      match get data (lit "models") with
      | inl loaded => set_models loaded s
      | inr _ => s
      end
  | inr _ => s
  end.

(** A continuation of [loadModels] that waits for the body. *)
Definition awaiting_models_body (k : result value -> prog effect unit) : Prop :=
  forall a s n, advance clock (k a) s n = (models_loaded a s, n, None).

(** A continuation of [loadModels] that waits for the models route. *)
Definition awaiting_models (k : result Response -> prog effect unit) : Prop :=
  forall a s n,
    match a with
    | inl r =>
        if ok r then
          exists k2,
            advance clock (k a) s n = (s, n, Some (OnJson r k2))
            /\ awaiting_models_body k2
        else advance clock (k a) s n = (s, n, None)
    | inr _ => advance clock (k a) s n = (s, n, None)
    end.

(** A waiting task is a handler of the page at one of its awaits. *)
Definition shaped (t : Task) : Prop :=
  match origin t, waiting t with
  | Chat, OnFetch _ _ k => awaiting_reply clock k
  | Chat, OnJson _ k => awaiting_body clock k
  | Health, OnFetch _ _ k => awaiting_health k
  | Health, OnJson _ _ => False
  | Models, OnFetch _ _ k => awaiting_models k
  | Models, OnJson _ k => awaiting_models_body k
  end.

(** The invariant of a running page: every waiting task is one of its
    handlers, and [isLoading] is true exactly when a call to the chat route
    waits, in which case it is the only one. *)
Definition coherent (m : Machine) : Prop :=
  Forall shaped (inflight m) /\
  ((isLoading (state m) = true /\ List.length (chat_calls m) = 1%nat)
   \/ (isLoading (state m) = false /\ chat_calls m = [])).

(** The machines that the page goes through from its first render. *)
Definition reachable (m : Machine) : Prop :=
  exists es, m = steps clock initial es.

(** What the end of a task of origin [o] does to the state: a call to the
    chat route appends one assistant message and clears [isLoading], the
    health check sets [isConnected], the loading of the models sets
    [models] or nothing. *)
Definition ends (o : Origin) (s s' : State) : Prop :=
  match o with
  | Chat =>
      exists msg,
        role msg = assistant /\ s' = set_isLoading false (appended msg s)
  | Health => exists b, s' = set_isConnected b s
  | Models => s' = s \/ exists v, s' = set_models v s
  end.

End Clock.

Definition is_Clear (e : Event) : bool :=
  match e with Clear => true | _ => false end.

Definition origin_eqb (a b : Origin) : bool :=
  match a, b with
  | Chat, Chat | Health, Health | Models, Models => true
  | _, _ => false
  end.

(** The event [e] is the settlement of a waiting call of origin [o]. *)
Definition settles (o : Origin) (m : Machine) (e : Event) : bool :=
  match e with
  | Settle i _ =>
      match nth_error (inflight m) i with
      | Some t => origin_eqb (origin t) o
      | None => false
      end
  | _ => false
  end.

(** The roles of [k] completed exchanges. *)
Fixpoint exchanges (k : nat) : list Role :=
  match k with
  | O => []
  | S k' => user :: assistant :: exchanges k'
  end.

Definition roles (m : Machine) : list Role :=
  List.map role (messages (state m)).

(** The roles are those of completed exchanges, followed by the user's
    message of the exchange under way while [isLoading] is true. *)
Definition settled_roles (m : Machine) : Prop :=
  exists k,
    roles m = exchanges k ++ (if isLoading (state m) then [user] else []).

End Reach.

(* ================================================================= *)
(** ** The page and the bridge together *)

Module Answers.

Import Bridge.

(** The three answers of the handler. *)
Definition bad_request : NextResponse :=
  {| http_status := 400;
     payload := VObject [ (lit "error", VString (lit "Message is required")) ] |}.

Definition server_error : NextResponse :=
  {| http_status := 500;
     payload :=
       VObject [ (lit "error",
                  VString (lit "Failed to process your request. Make sure Ollama is running and the model is available.")) ] |}.

Definition generated_text (v : value) : NextResponse :=
  {| http_status := 200; payload := VObject [ (lit "response", v) ] |}.

(** The body that the page sends to the chat route, as [request.json()]
    gives it to the handler: an object of two strings is its own JSON
    round trip. *)
Definition page_request (content selectedModel : jsstring) : value :=
  VObject [ (lit "message", VString content);
            (lit "model", VString selectedModel) ].

(** How the answer [res] of the handler reaches the call of the page that
    waits at [i]: the reply carries the status of the answer, and when it
    is a success one the page reads the body.  The payload is taken as the
    page parses it, which holds of a payload made of strings. *)
Definition delivered (i : nat) (res : NextResponse) : list Session.Event :=
  let r := {| status := http_status res |} in
  Session.Settle i (Session.Fetched (inl r))
  :: (if ok r
      then [ Session.Settle i (Session.Parsed (inl (payload res))) ]
      else []).

End Answers.

(* ================================================================= *)
(** ** More example inputs *)

Module MoreExamples.

(** The request [{message: {toString: null}}]: a truthy message that no
    template literal can print. *)
Definition env_unprintable : Bridge.Env :=
  {| Bridge.request_json :=
       inl (VObject [ (lit "message", VObject [ (lit "toString", VNull) ]) ]);
     Bridge.upstream := fun _ _ => inl {| status := 200 |};
     Bridge.response_text := fun _ => inl (lit "{}");
     Bridge.response_json := fun _ => inl Examples.hello |}.

(** The request [{message: "hi"}] and an upstream that replies 200 with a
    body that is not JSON. *)
Definition env_garbled : Bridge.Env :=
  {| Bridge.request_json := inl (VObject [ (lit "message", VString (lit "hi")) ]);
     Bridge.upstream := fun _ _ => inl {| status := 200 |};
     Bridge.response_text := fun _ => inl (lit "<html>");
     Bridge.response_json := fun _ => inr (SyntaxError (lit "Unexpected token")) |}.

(** The request [{message: 0}]. *)
Definition env_zero_message : Bridge.Env :=
  {| Bridge.request_json := inl (VObject [ (lit "message", VNumber 0) ]);
     Bridge.upstream := fun _ _ => inl {| status := 200 |};
     Bridge.response_text := fun _ => inl (lit "{}");
     Bridge.response_json := fun _ => inl Examples.hello |}.

(** The request [{message: "hi"}] and an upstream that replies 200 with
    [{"response": 1e999}], which is read as infinity. *)
Definition overflow_reply : value :=
  VObject [ (lit "response", VNumber PrimFloat.infinity) ].

Definition env_overflow : Bridge.Env :=
  {| Bridge.request_json := inl (VObject [ (lit "message", VString (lit "hi")) ]);
     Bridge.upstream := fun _ _ => inl {| status := 200 |};
     Bridge.response_text := fun _ => inl (lit "{}");
     Bridge.response_json := fun _ => inl overflow_reply |}.

(** A request whose body is not JSON. *)
Definition env_no_json : Bridge.Env :=
  {| Bridge.request_json := inr (SyntaxError (lit "Unexpected end of JSON input"));
     Bridge.upstream := fun _ _ => inl {| status := 200 |};
     Bridge.response_text := fun _ => inl (lit "{}");
     Bridge.response_json := fun _ => inl Examples.hello |}.

(** A request whose body is the JSON [null]. *)
Definition env_null_body : Bridge.Env :=
  {| Bridge.request_json := inl VNull;
     Bridge.upstream := fun _ _ => inl {| status := 200 |};
     Bridge.response_text := fun _ => inl (lit "{}");
     Bridge.response_json := fun _ => inl Examples.hello |}.

(** The page's own request for the content "hi" with the default model,
    and an upstream that replies 200 with [{response: ""}]. *)
Definition env_page_empty : Bridge.Env :=
  {| Bridge.request_json :=
       inl (Answers.page_request (lit "hi") (lit "llama3:latest"));
     Bridge.upstream := fun _ _ => inl {| status := 200 |};
     Bridge.response_text := fun _ => inl (lit "{}");
     Bridge.response_json := fun _ => inl Examples.empty_reply |}.

(** The same request and an upstream that cannot be reached. *)
Definition env_page_down : Bridge.Env :=
  {| Bridge.request_json :=
       inl (Answers.page_request (lit "hi") (lit "llama3:latest"));
     Bridge.upstream := fun _ _ => inr (TypeError (lit "fetch failed"));
     Bridge.response_text := fun _ => inl (lit "{}");
     Bridge.response_json := fun _ => inl Examples.hello |}.

(** The events up to the waiting call of [Examples.waiting]. *)
Definition to_waiting : list Session.Event :=
  [ Session.Change (lit " hi "); Session.Send None ].


(** A clock of coarse grain: four reads in a row see the same time. *)
Definition coarse_clock (n : nat) : Z := 1000 + Z.of_nat (n / 4).

(** A reply of the models route with one model. *)
Definition one_model : value :=
  VObject [ (lit "models",
             VArray [ VObject [ (lit "name", VString (lit "llama3:latest")) ] ]) ].

End MoreExamples.

(* ================================================================= *)
(** ** Strings *)

#[local] Arguments lit : simpl never.

Lemma trimStart_nil_iff (s : jsstring) :
  trimStart s = [] <-> whitespace_only s = true.
Proof.
  unfold whitespace_only.
  induction s as [| c s IH]; simpl.
  - tauto.
  - destruct (is_white_space c); simpl.
    + exact IH.
    + split; discriminate.
Qed.

Lemma whitespace_only_rev (s : jsstring) :
  whitespace_only (rev s) = whitespace_only s.
Proof.
  unfold whitespace_only.
  induction s as [| c s IH]; simpl; [reflexivity |].
  rewrite forallb_app, IH. simpl.
  rewrite andb_true_r. apply andb_comm.
Qed.

(** What is left by [trimStart] does not begin with whitespace, so it is
    whitespace only when it is empty. *)
Lemma trimStart_whitespace_only (s : jsstring) :
  whitespace_only (trimStart s) = true -> trimStart s = [].
Proof.
  unfold whitespace_only.
  induction s as [| c s IH]; simpl; [reflexivity |].
  destruct (is_white_space c) eqn:Hc; [exact IH |].
  simpl. rewrite Hc. discriminate.
Qed.

(** [trim] gives the empty string exactly on the whitespace-only strings. *)
Lemma trim_nil_iff (s : jsstring) :
  trim s = [] <-> whitespace_only s = true.
Proof.
  unfold trim, trimEnd. split.
  - intros H.
    apply (f_equal (@rev code_unit)) in H. rewrite rev_involutive in H.
    simpl in H. apply trimStart_nil_iff in H.
    rewrite whitespace_only_rev in H.
    apply trimStart_nil_iff, trimStart_whitespace_only, H.
  - intros H. apply trimStart_nil_iff in H. rewrite H. reflexivity.
Qed.

(* ================================================================= *)
(** ** Properties of the bridge *)

Module BridgeFacts.

Import Bridge.

Lemma get_defined_everywhere (v : value) (k k' : jsstring) (x : value) :
  get v k = inl x -> exists y, get v k' = inl y.
Proof. destruct v; simpl; intros H; try discriminate; eauto. Qed.

(** A request whose [message] is a non-empty string and whose [model] is
    a string or is missing is accepted. *)
Lemma string_request_accepted (body : value) (c : code_unit) (rest : jsstring)
      (model : value) :
  get body (lit "message") = inl (VString (c :: rest)) ->
  get body (lit "model") = inl model ->
  (model = VUndefined \/ exists name, model = VString name) ->
  accepted body (VString (c :: rest)) model.
Proof.
  intros Hm Hmo Hty. unfold accepted.
  repeat split; try assumption.
  destruct Hty as [-> | [name ->]]; reflexivity.
Qed.

(** The steps of [POST] up to the upstream call, for an accepted
    request. *)
Ltac enter_POST Hb Hacc :=
  let Hm := fresh "Hm" in
  let Hmo := fresh "Hmo" in
  let Ht := fresh "Ht" in
  let Hs1 := fresh "Hs" in
  let Hs2 := fresh "Hs" in
  destruct Hacc as (Hm & Hmo & Ht & Hs1 & Hs2);
  unfold POST; cbn; rewrite Hb; cbn;
  unfold destructure; rewrite Hm, Hmo; cbn; rewrite Ht; cbn;
  unfold template; rewrite Hs1, Hs2; cbn.

(** The handler always answers: no exception leaves it. *)
Lemma POST_always_responds (env : Env) :
  exists res, fst (run env POST) = inl res.
Proof.
  unfold POST. cbn.
  destruct (request_json env) as [body | e]; cbn; [| eauto].
  destruct (destructure body) as [[message model] | e]; cbn; [| eauto].
  destruct (truthy message); cbn; [| eauto].
  unfold template.
  destruct (ToString_completes model); cbn; [| eauto].
  destruct (ToString_completes message); cbn; [| eauto].
  destruct (upstream env _ _) as [r | e]; cbn; [| eauto].
  destruct (ok r); cbn.
  - destruct (response_json env r) as [data | e]; cbn; [| eauto].
    destruct (get data (lit "response")); cbn; eauto.
  - destruct (response_text env r); cbn; eauto.
Qed.

(** A request whose body is a JSON value with no [message] property,
    or with the empty string as [message], is answered with status 400
    and the body [{error: "Message is required"}], and the handler makes
    no outbound call. *)
Theorem POST_message_required (env : Env) (body : value) :
  request_json env = inl body ->
  get body (lit "message") = inl VUndefined \/
  get body (lit "message") = inl (VString []) ->
  run env POST =
    (inl {| http_status := 400;
            payload := VObject [ (lit "error", VString (lit "Message is required")) ] |},
     []).
Proof.
  intros Hb Hm.
  assert (exists m, get body (lit "message") = inl m /\ truthy m = false)
    as (m & Hg & Ht) by (destruct Hm as [-> | ->]; eauto).
  destruct (get_defined_everywhere body (lit "message") (lit "model") m Hg)
    as (mo & Hmo).
  unfold POST. cbn. rewrite Hb. cbn.
  unfold destructure. rewrite Hg, Hmo. cbn.
  rewrite Ht. reflexivity.
Qed.

Lemma POST_message_required_witness :
  run Examples.env_empty_message POST =
    (inl {| http_status := 400;
            payload := VObject [ (lit "error", VString (lit "Message is required")) ] |},
     []).
Proof.
  apply (POST_message_required Examples.env_empty_message
           (VObject [ (lit "message", VString []) ])).
  - reflexivity.
  - right. reflexivity.
Defined.

(** The same holds of every falsy [message]: [null], [false], [0]. *)
Lemma POST_falsy_message (env : Env) (body message : value) :
  request_json env = inl body ->
  get body (lit "message") = inl message ->
  truthy message = false ->
  run env POST =
    (inl (NextResponse_json (VObject [ (lit "error", VString message_required) ])
            (Some 400)),
     []).
Proof.
  intros Hb Hg Ht.
  destruct (get_defined_everywhere body (lit "message") (lit "model") message Hg)
    as (mo & Hmo).
  unfold POST. cbn. rewrite Hb. cbn.
  unfold destructure. rewrite Hg, Hmo. cbn.
  rewrite Ht. reflexivity.
Qed.

(** A body that is not JSON, or is the JSON [null], has no properties to
    read: the handler answers 500, without an outbound call. *)
Lemma POST_unreadable_body (env : Env) :
  (exists e, request_json env = inr e) \/ request_json env = inl VNull ->
  run env POST =
    (inl (NextResponse_json (VObject [ (lit "error", VString failed_to_process) ])
            (Some 500)),
     []).
Proof.
  intros [[e He] | He]; unfold POST; cbn; rewrite He; reflexivity.
Qed.

(** C4, as stated, fails: a request whose body is the JSON [null], or is
    not JSON, has no message, and the handler does not answer it 400. *)
Lemma POST_missing_message_not_400 :
  ~ (message_of (request_json MoreExamples.env_null_body) = VUndefined
     \/ message_of (request_json MoreExamples.env_null_body) = VString [] ->
     run MoreExamples.env_null_body POST =
       (inl {| http_status := 400;
               payload := VObject [ (lit "error", VString (lit "Message is required")) ] |},
        []))
  /\
  ~ (message_of (request_json MoreExamples.env_no_json) = VUndefined
     \/ message_of (request_json MoreExamples.env_no_json) = VString [] ->
     fst (run MoreExamples.env_no_json POST) =
       inl {| http_status := 400;
              payload := VObject [ (lit "error", VString (lit "Message is required")) ] |}).
Proof.
  split; intros H; specialize (H (or_introl eq_refl));
    vm_compute in H; discriminate H.
Qed.

(** C4, amended.  A request whose message is missing or the empty string
    is never forwarded: the handler makes no outbound call.  When its body
    can be read, JSON other than [null], the answer is 400 with the body
    [{error: "Message is required"}]; when it cannot, no body, not JSON, or
    the JSON [null], the answer is 500 with the fixed failure text. *)
Theorem POST_missing_message (env : Env) :
  message_of (request_json env) = VUndefined
  \/ message_of (request_json env) = VString [] ->
  run env POST =
    (inl (if readable (request_json env)
          then {| http_status := 400;
                  payload :=
                    VObject [ (lit "error", VString (lit "Message is required")) ] |}
          else {| http_status := 500;
                  payload :=
                    VObject [ (lit "error",
                               VString (lit "Failed to process your request. Make sure Ollama is running and the model is available.")) ] |}),
     []).
Proof.
  intros Hm. unfold message_of, readable in *.
  destruct (request_json env) as [body | e] eqn:Hb.
  - destruct (get body (lit "message")) as [message | e] eqn:Hg.
    + assert (Ht : truthy message = false) by (destruct Hm as [-> | ->]; reflexivity).
      destruct (get_defined_everywhere body (lit "message") (lit "model") message Hg)
        as (mo & Hmo).
      unfold destructure. rewrite Hg, Hmo.
      exact (POST_falsy_message env body message Hb Hg Ht).
    + assert (Hd : destructure body = inr e) by (unfold destructure; rewrite Hg; reflexivity).
      rewrite Hd. unfold POST. cbn. rewrite Hb. cbn. rewrite Hd. reflexivity.
  - unfold POST. cbn. rewrite Hb. reflexivity.
Qed.

Lemma POST_missing_message_witness :
  run Examples.env_empty_message POST =
    (inl {| http_status := 400;
            payload := VObject [ (lit "error", VString (lit "Message is required")) ] |},
     []).
Proof.
  exact (POST_missing_message Examples.env_empty_message (or_intror eq_refl)).
Defined.

(** C8.  For an accepted request the handler makes exactly one outbound
    call: a POST to the generation endpoint whose body carries the
    request's model (the default when the request has none) and its
    message as the prompt, both as received, with [stream: false] and the
    options temperature 0.7, top_p 0.9 and top_k 40. *)
Theorem POST_forwards_fixed_parameters (env : Env) (body message model : value) :
  request_json env = inl body ->
  accepted body message model ->
  snd (run env POST) =
    [ (lit "http://localhost:11434/api/generate",
       {| method := lit "POST";
          headers := [ (lit "Content-Type", lit "application/json") ];
          body :=
            Some (VObject
                    [ (lit "model",
                        match model with
                        | VUndefined => VString (lit "llama3:latest")
                        | _ => model
                        end);
                      (lit "prompt", message);
                      (lit "stream", VBool false);
                      (lit "options",
                        VObject [ (lit "temperature", VNumber 0.7);
                                  (lit "top_p", VNumber 0.9);
                                  (lit "top_k", VNumber 40) ]) ]) |}) ].
Proof.
  intros Hb Hacc. enter_POST Hb Hacc.
  change (match model with
          | VUndefined => VString (lit "llama3:latest")
          | _ => model
          end) with (model_or_default model).
  destruct (upstream env _ _) as [r | e]; cbn; [| reflexivity].
  destruct (ok r); cbn.
  - destruct (response_json env r) as [data | e]; cbn; [| reflexivity].
    destruct (get data (lit "response")); reflexivity.
  - destruct (response_text env r); reflexivity.
Qed.

Lemma POST_forwards_fixed_parameters_witness :
  snd (run Examples.env_hi POST) =
    [ (lit "http://localhost:11434/api/generate",
       {| method := lit "POST";
          headers := [ (lit "Content-Type", lit "application/json") ];
          body :=
            Some (VObject
                    [ (lit "model", VString (lit "llama3:latest"));
                      (lit "prompt", VString (lit "hi"));
                      (lit "stream", VBool false);
                      (lit "options",
                        VObject [ (lit "temperature", VNumber 0.7);
                                  (lit "top_p", VNumber 0.9);
                                  (lit "top_k", VNumber 40) ]) ]) |}) ].
Proof.
  apply (POST_forwards_fixed_parameters Examples.env_hi
           (VObject [ (lit "message", VString (lit "hi"));
                      (lit "model", VString (lit "llama3:latest")) ])
           (VString (lit "hi")) (VString (lit "llama3:latest"))).
  - reflexivity.
  - repeat split; reflexivity.
Defined.

(** C5, as stated, fails: the upstream reply [{response: ""}] has the
    field, and the bridge returns the placeholder in its place. *)
Lemma POST_empty_response_replaced :
  ~ (forall generated,
        get Examples.empty_reply (lit "response") = inl generated ->
        generated <> VUndefined ->
        fst (run Examples.env_empty_reply POST) =
          inl {| http_status := 200;
                 payload := VObject [ (lit "response", generated) ] |})
  /\
  ~ (fst (run Examples.env_empty_reply POST) =
       inl {| http_status := 200;
              payload :=
                VObject [ (lit "response",
                           VString (lit "No response received from the model")) ] |} ->
     get Examples.empty_reply (lit "response") = inl VUndefined).
Proof.
  split.
  - intros H. specialize (H (VString []) eq_refl).
    assert (VString [] <> VUndefined) as Hne by discriminate.
    specialize (H Hne). vm_compute in H. discriminate H.
  - intros H. assert (Hrun : fst (run Examples.env_empty_reply POST) =
       inl {| http_status := 200;
              payload :=
                VObject [ (lit "response",
                           VString (lit "No response received from the model")) ] |})
      by reflexivity.
    specialize (H Hrun). vm_compute in H. discriminate H.
Qed.

(** The value that the handler hands to [NextResponse.json].  When the
    upstream answers an accepted request with a success status and a JSON
    body that is not [null], it is the body's [response] property if that
    value is truthy, and the placeholder if it is falsy: missing, [null],
    [false], [0] or the empty string. *)
Theorem POST_returns_truthy_response
        (env : Env) (body message model : value)
        (r : Response) (data generated : value) :
  request_json env = inl body ->
  accepted body message model ->
  upstream env generate_url (generate_init (model_or_default model) message) = inl r ->
  ok r = true ->
  response_json env r = inl data ->
  get data (lit "response") = inl generated ->
  fst (run env POST) =
    inl {| http_status := 200;
           payload :=
             VObject [ (lit "response",
                        if truthy generated then generated
                        else VString (lit "No response received from the model")) ] |}.
Proof.
  intros Hb Hacc Hup Hok Hjson Hget. enter_POST Hb Hacc.
  rewrite Hup. cbn. rewrite Hok. cbn. rewrite Hjson. cbn. rewrite Hget.
  reflexivity.
Qed.

Lemma POST_returns_truthy_response_witness :
  fst (run Examples.env_hi POST) =
    inl {| http_status := 200;
           payload := VObject [ (lit "response", VString (lit "hello")) ] |}.
Proof.
  apply (POST_returns_truthy_response Examples.env_hi
           (VObject [ (lit "message", VString (lit "hi"));
                      (lit "model", VString (lit "llama3:latest")) ])
           (VString (lit "hi")) (VString (lit "llama3:latest"))
           {| status := 200 |} Examples.hello (VString (lit "hello")));
    try reflexivity.
  repeat split; reflexivity.
Defined.

(** A success whose body is the JSON [null] has no [response] to read:
    the bridge answers 500. *)
Lemma POST_null_reply (env : Env) (body message model : value) (r : Response) :
  request_json env = inl body ->
  accepted body message model ->
  upstream env generate_url (generate_init (model_or_default model) message) = inl r ->
  ok r = true ->
  response_json env r = inl VNull ->
  fst (run env POST) =
    inl (NextResponse_json (VObject [ (lit "error", VString failed_to_process) ])
           (Some 500)).
Proof.
  intros Hb Hacc Hup Hok Hjson. enter_POST Hb Hacc.
  rewrite Hup. cbn. rewrite Hok. cbn. rewrite Hjson. reflexivity.
Qed.

(** An upstream reply with a non-success status, whatever its text, and
    an upstream that cannot be reached give the same fixed answer. *)
Lemma POST_upstream_failure (env : Env) (body message model : value) :
  request_json env = inl body ->
  accepted body message model ->
  match upstream env generate_url (generate_init (model_or_default model) message) with
  | inl r => ok r = false
  | inr _ => True
  end ->
  fst (run env POST) =
    inl {| http_status := 500;
           payload := VObject [ (lit "error", VString failed_to_process) ] |}.
Proof.
  intros Hb Hacc Hup. enter_POST Hb Hacc.
  destruct (upstream env _ _) as [r | e]; cbn; [| reflexivity].
  rewrite Hup. cbn.
  destruct (response_text env r); reflexivity.
Qed.

(** A property that has a value is written with that value. *)
Lemma wire_property (k : jsstring) (v : value) :
  v <> VUndefined -> wire (VObject [ (k, v) ]) = VObject [ (k, wire v) ].
Proof. destruct v; intros H; [congruence | reflexivity ..]. Qed.

Lemma truthy_defined (v : value) : truthy v = true -> v <> VUndefined.
Proof. intros H ->. discriminate H. Qed.

(** C5, amended.  When the upstream answers an accepted request with a
    success status and a JSON body that is not [null], the bridge answers
    200, and the [response] that it sends is: the body's [response] as JSON
    writes it if that value is truthy, which is the value exactly as
    received for every value that JSON reads back as it was written, every
    non-empty string among them; and the placeholder if the value is
    falsy: missing, [null], [false], [0] or the empty string. *)
Theorem POST_sends_response
        (env : Env) (body message model : value)
        (r : Response) (data generated : value) :
  request_json env = inl body ->
  accepted body message model ->
  upstream env generate_url (generate_init (model_or_default model) message) = inl r ->
  ok r = true ->
  response_json env r = inl data ->
  get data (lit "response") = inl generated ->
  exists res,
    fst (run env POST) = inl res
    /\ http_status res = 200
    /\ sent res =
         VObject [ (lit "response",
                    if truthy generated then wire generated
                    else VString (lit "No response received from the model")) ]
    /\ (truthy generated = true -> wire generated = generated ->
        sent res = VObject [ (lit "response", generated) ])
    /\ (forall c rest, generated = VString (c :: rest) ->
        sent res = VObject [ (lit "response", VString (c :: rest)) ]).
Proof.
  intros Hb Hacc Hup Hok Hjson Hget.
  exists (NextResponse_json
            (VObject [ (lit "response", js_or generated (VString no_response)) ])
            None).
  assert (Hsent : sent (NextResponse_json
                          (VObject [ (lit "response",
                                      js_or generated (VString no_response)) ])
                          None) =
                  VObject [ (lit "response",
                             if truthy generated then wire generated
                             else VString (lit "No response received from the model")) ]).
  { unfold sent, NextResponse_json, js_or. cbn [payload].
    destruct (truthy generated) eqn:Ht.
    - apply wire_property, truthy_defined, Ht.
    - reflexivity. }
  split; [| split; [reflexivity | split; [exact Hsent | split]]].
  - enter_POST Hb Hacc.
    rewrite Hup. cbn. rewrite Hok. cbn. rewrite Hjson. cbn. rewrite Hget.
    reflexivity.
  - intros Ht Hw. rewrite Hsent, Ht, Hw. reflexivity.
  - intros c rest ->. rewrite Hsent. reflexivity.
Qed.

Lemma POST_sends_response_witness :
  exists res,
    fst (run Examples.env_hi POST) = inl res
    /\ http_status res = 200
    /\ sent res = VObject [ (lit "response", VString (lit "hello")) ].
Proof.
  assert (Hacc : accepted (VObject [ (lit "message", VString (lit "hi"));
                                     (lit "model", VString (lit "llama3:latest")) ])
                   (VString (lit "hi")) (VString (lit "llama3:latest")))
    by (repeat split; reflexivity).
  destruct (POST_sends_response Examples.env_hi
              (VObject [ (lit "message", VString (lit "hi"));
                         (lit "model", VString (lit "llama3:latest")) ])
              (VString (lit "hi")) (VString (lit "llama3:latest"))
              {| status := 200 |} Examples.hello (VString (lit "hello"))
              eq_refl Hacc eq_refl eq_refl eq_refl eq_refl)
    as (res & Hres & Hst & Hsent & _).
  exists res. split; [exact Hres | split; [exact Hst | exact Hsent]].
Defined.

(** A number that is not finite is not sent as received: for the upstream
    reply [{"response": 1e999}], read as infinity, the handler hands
    infinity to [NextResponse.json] and the client reads [null]. *)
Lemma POST_overflow_sent_as_null :
  exists res,
    fst (run MoreExamples.env_overflow POST) = inl res
    /\ payload res = VObject [ (lit "response", VNumber PrimFloat.infinity) ]
    /\ sent res = VObject [ (lit "response", VNull) ].
Proof. eexists. split; [reflexivity | split; reflexivity]. Qed.

End BridgeFacts.

(* ================================================================= *)
(** ** Properties of the chat session *)

Lemma split_at {A : Type} (l1 : list A) (a : A) (l2 : list A) :
  nth_error (l1 ++ a :: l2) (List.length l1) = Some a /\
  firstn (List.length l1) (l1 ++ a :: l2) = l1 /\
  skipn (S (List.length l1)) (l1 ++ a :: l2) = l2.
Proof.
  induction l1 as [| x l1 IH]; simpl.
  - auto.
  - destruct IH as (H1 & H2 & H3). rewrite H2. auto.
Qed.

Module SessionFacts.

Import Session.

Lemma machine_eta (m : Machine) :
  {| state := state m; reads := reads m; inflight := inflight m |} = m.
Proof. destruct m; reflexivity. Qed.

Lemma content_of_cons (mc : option jsstring) (inp : jsstring) :
  content_of mc inp <> [] ->
  exists c rest, content_of mc inp = c :: rest.
Proof.
  destruct (content_of mc inp) as [| c rest]; [congruence | eauto].
Qed.

Section Clock.

Variable clock : nat -> Z.

(* ------------------------------------------------------------- *)
(** *** What [sendMessage] does *)

(** The guard: nothing happens, and nothing is called. *)
Lemma sendMessage_rejected (s0 : State) (mc : option jsstring) :
  content_of mc (input s0) = [] \/ isLoading s0 = true ->
  sendMessage s0 mc = Ret tt.
Proof.
  unfold sendMessage. intros [-> | ->].
  - reflexivity.
  - rewrite orb_true_r. reflexivity.
Qed.

(** Past the guard: the user message is appended, the input cleared,
    [isLoading] set, and the handler waits for the chat route. *)
Lemma sendMessage_starts (s0 : State) (mc : option jsstring)
      (s : State) (n : nat) :
  content_of mc (input s0) <> [] ->
  isLoading s0 = false ->
  exists k,
    advance clock (sendMessage s0 mc) s n =
      (set_isLoading true
         (set_input []
            (appended
               (user_message (clock n) (content_of mc (input s0)) (clock (S n)))
               s)),
       S (S n),
       Some (OnFetch chat_url
               (Some (chat_init (content_of mc (input s0)) (selectedModel s0)))
               k))
    /\ awaiting_reply clock k.
Proof.
  intros Hc Hl.
  destruct (content_of_cons mc (input s0) Hc) as (c & rest & Hcr).
  unfold sendMessage. rewrite Hcr, Hl. cbn.
  eexists. split; [reflexivity |].
  intros [r | e] s' n'; cbn; [| reflexivity].
  destruct (ok r); cbn; [| reflexivity].
  eexists. split; [reflexivity |].
  intros [data | e] s'' n''; cbn; [| eexists; reflexivity].
  destruct (get data (lit "response")); eexists; reflexivity.
Qed.

Lemma send_rejected (m : Machine) (mc : option jsstring) :
  content_of mc (input (state m)) = [] \/ isLoading (state m) = true ->
  step clock m (Send mc) = m.
Proof.
  intros H. cbn [step]. rewrite (sendMessage_rejected _ _ H).
  apply machine_eta.
Qed.

Lemma send_accepted (m : Machine) (mc : option jsstring) :
  content_of mc (input (state m)) <> [] ->
  isLoading (state m) = false ->
  exists k,
    step clock m (Send mc) =
      {| state :=
           set_isLoading true
             (set_input []
                (appended
                   (user_message (clock (reads m))
                      (content_of mc (input (state m)))
                      (clock (S (reads m))))
                   (state m)));
         reads := S (S (reads m));
         inflight :=
           inflight m ++
           [ {| origin := Chat;
                waiting :=
                  OnFetch chat_url
                    (Some (chat_init (content_of mc (input (state m)))
                             (selectedModel (state m))))
                    k |} ] |}
    /\ awaiting_reply clock k.
Proof.
  intros Hc Hl.
  destruct (sendMessage_starts (state m) mc (state m) (reads m) Hc Hl)
    as (k & Hadv & Hk).
  exists k. split; [| exact Hk].
  cbn [step]. unfold invoke. rewrite Hadv. reflexivity.
Qed.

(* ------------------------------------------------------------- *)
(** *** Settling a waiting call *)

Lemma settle_at (m : Machine) (l1 : list Task) (t : Task) (l2 : list Task)
      (a : Answer) (p : prog effect unit) :
  inflight m = l1 ++ t :: l2 ->
  resume (waiting t) a = Some p ->
  settle clock (List.length l1) a m =
    match advance clock p (state m) (reads m) with
    | (s, n, None) => {| state := s; reads := n; inflight := l1 ++ l2 |}
    | (s, n, Some w) =>
        {| state := s; reads := n;
           inflight := l1 ++ {| origin := origin t; waiting := w |} :: l2 |}
    end.
Proof.
  intros Hin Hres. unfold settle. rewrite Hin.
  destruct (split_at l1 t l2) as (-> & -> & ->).
  rewrite Hres. reflexivity.
Qed.

(** The chat route does not answer, or answers with a non-success
    status: the fallback message is appended and the call is over. *)
Lemma settle_failure (s : State) (n : nat) (l : list Task)
      (url : jsstring) (init : option RequestInit)
      (k : result Response -> prog effect unit) (a : result Response) :
  awaiting_reply clock k ->
  match a with inl r => ok r = false | inr _ => True end ->
  step clock
    {| state := s; reads := n;
       inflight := l ++ [ {| origin := Chat; waiting := OnFetch url init k |} ] |}
    (Settle (List.length l) (Fetched a)) =
  {| state := set_isLoading false
                (appended (error_message (clock n) (clock (S n))) s);
     reads := S (S n);
     inflight := l |}.
Proof.
  intros Hk Ha. cbn [step].
  erewrite settle_at; [| reflexivity | reflexivity].
  cbn [state reads]. specialize (Hk a s n).
  destruct a as [r | e].
  - rewrite Ha in Hk. rewrite Hk, app_nil_r. reflexivity.
  - rewrite Hk, app_nil_r. reflexivity.
Qed.

(** The chat route answers with a success status and then with its
    body: the answering message is appended and the call is over. *)
Lemma settle_success (s : State) (n : nat) (l : list Task)
      (url : jsstring) (init : option RequestInit)
      (k : result Response -> prog effect unit)
      (r : Response) (a : result value) :
  awaiting_reply clock k ->
  ok r = true ->
  exists k2,
    step clock
      {| state := s; reads := n;
         inflight := l ++ [ {| origin := Chat; waiting := OnFetch url init k |} ] |}
      (Settle (List.length l) (Fetched (inl r))) =
    {| state := s; reads := n;
       inflight := l ++ [ {| origin := Chat; waiting := OnJson r k2 |} ] |}
    /\
    forall s' n', exists n'',
      step clock
        {| state := s'; reads := n';
           inflight := l ++ [ {| origin := Chat; waiting := OnJson r k2 |} ] |}
        (Settle (List.length l) (Parsed a)) =
      {| state := set_isLoading false (appended (reply_to clock a n') s');
         reads := n'';
         inflight := l |}.
Proof.
  intros Hk Hok.
  pose proof (Hk (inl r) s n) as Hr. cbn in Hr. rewrite Hok in Hr.
  destruct Hr as (k2 & Hadv & Hk2).
  exists k2. split.
  - cbn [step].
    erewrite settle_at; [| reflexivity | reflexivity].
    cbn [state reads origin]. rewrite Hadv. reflexivity.
  - intros s' n'. destruct (Hk2 a s' n') as (n'' & Hadv2).
    exists n''. cbn [step].
    erewrite settle_at; [| reflexivity | reflexivity].
    cbn [state reads]. rewrite Hadv2, app_nil_r. reflexivity.
Qed.

(** [clearChat] on any machine. *)
Lemma step_Clear (m : Machine) :
  step clock m Clear =
    {| state := set_messages (fun _ => []) (state m);
       reads := reads m;
       inflight := inflight m |}.
Proof. reflexivity. Qed.

Lemma reply_to_role (a : result value) (n : nat) :
  role (reply_to clock a n) = assistant.
Proof.
  unfold reply_to. destruct a as [data | e]; [| reflexivity].
  destruct (get data (lit "response")); reflexivity.
Qed.

Lemma reply_to_content (data generated : value) (n : nat) :
  get data (lit "response") = inl generated ->
  content (reply_to clock (inl data) n) = generated.
Proof. intros H. unfold reply_to. rewrite H. reflexivity. Qed.

(* ------------------------------------------------------------- *)
(** *** The exchange *)

(** A success status reaches the waiting call [k]: it now waits for
    the body.  [Hparsed] tells what the body will do. *)
Ltac reply_arrives k r a Hk Hok :=
  match goal with
  | |- context [step _ {| state := ?s; reads := ?n;
                          inflight := ?l ++ [ {| origin := Chat;
                                                 waiting := OnFetch ?url ?init k |} ] |}
                  (Settle _ (Fetched (inl r)))] =>
      let k2 := fresh "k2" in
      let Hfetched := fresh "Hfetched" in
      destruct (settle_success s n l url init k r a Hk Hok)
        as (k2 & Hfetched & Hparsed);
      rewrite Hfetched
  end.

(** The body reaches the call that waits for it. *)
Ltac body_arrives Hparsed :=
  match goal with
  | |- context [step _ {| state := ?s; reads := ?n; inflight := _ |}
                  (Settle _ (Parsed _))] =>
      let n' := fresh "n'" in
      let Hdone := fresh "Hdone" in
      destruct (Hparsed s n) as (n' & Hdone);
      rewrite Hdone
  end.

(** C1.  When a submit has non-empty content while [isLoading] is false,
    and the chat route then answers with a success status and a body,
    the message list has grown by exactly two messages: the user's,
    with the submitted content, and after it one with the assistant
    role, whose content is the [response] of the body when the body
    has one to read.  After that [isLoading] is false and the call is
    no longer waiting. *)
Theorem successful_exchange (m : Machine) (mc : option jsstring)
        (r : Response) (a : result value) :
  content_of mc (input (state m)) <> [] ->
  isLoading (state m) = false ->
  ok r = true ->
  let i := List.length (inflight m) in
  let m' := steps clock m [Send mc; Settle i (Fetched (inl r)); Settle i (Parsed a)] in
  let reply := reply_to clock a (S (S (reads m))) in
  messages (state m') =
    messages (state m)
    ++ [ user_message (clock (reads m)) (content_of mc (input (state m)))
           (clock (S (reads m)));
         reply ]
  /\ role reply = assistant
  /\ (forall data generated,
         a = inl data -> get data (lit "response") = inl generated ->
         content reply = generated)
  /\ isLoading (state m') = false
  /\ inflight m' = inflight m.
Proof.
  intros Hc Hl Hok i m' reply. subst i m' reply.
  destruct (send_accepted m mc Hc Hl) as (k & Hsend & Hk).
  cbn [steps fold_left]. rewrite Hsend.
  reply_arrives k r a Hk Hok. body_arrives Hparsed.
  cbn [state inflight].
  repeat split.
  - cbn. rewrite <- app_assoc. reflexivity.
  - apply reply_to_role.
  - intros data generated -> Hget. apply reply_to_content, Hget.
Qed.

(** C2.  When the input is empty or whitespace only, submitting the
    form changes nothing, and neither does [sendMessage] called with no
    argument or with the empty string: the machine after the submit is
    the machine before it, with the same messages, the same state and the
    same waiting calls. *)
Theorem blank_input_is_noop (m : Machine) :
  whitespace_only (input (state m)) = true ->
  step clock m Submit = m
  /\ step clock m (Send None) = m
  /\ step clock m (Send (Some [])) = m.
Proof.
  intros Hw.
  assert (Hempty : trim (input (state m)) = []) by (apply trim_nil_iff, Hw).
  split; [| split].
  - change (step clock m Submit) with (step clock m (Send None)).
    apply send_rejected. left. exact Hempty.
  - apply send_rejected. left. exact Hempty.
  - apply send_rejected. left. exact Hempty.
Qed.

(** C9.  An argument of [sendMessage] is not trimmed.  While [isLoading]
    is false, a non-empty argument of nothing but whitespace, which
    [trim] would empty, is appended as the content of a user message,
    and the chat route is called with it as the message. *)
Theorem explicit_argument_not_trimmed (m : Machine) (arg : jsstring) :
  arg <> [] ->
  whitespace_only arg = true ->
  isLoading (state m) = false ->
  trim arg = [] /\
  exists k,
    step clock m (Send (Some arg)) =
      {| state :=
           {| messages :=
                messages (state m)
                ++ [ {| id := number_toString (clock (reads m));
                        content := VString arg;
                        role := user;
                        timestamp := clock (S (reads m)) |} ];
              input := [];
              isLoading := true;
              isConnected := isConnected (state m);
              models := models (state m);
              selectedModel := selectedModel (state m) |};
         reads := S (S (reads m));
         inflight :=
           inflight m ++
           [ {| origin := Chat;
                waiting :=
                  OnFetch (lit "/api/chat")
                    (Some {| method := lit "POST";
                             headers := [ (lit "Content-Type", lit "application/json") ];
                             body :=
                               Some (VObject
                                       [ (lit "message", VString arg);
                                         (lit "model",
                                          VString (selectedModel (state m))) ]) |})
                    k |} ] |}.
Proof.
  intros Hne Hw Hl. split; [apply trim_nil_iff, Hw |].
  assert (Hc : content_of (Some arg) (input (state m)) = arg)
    by (destruct arg; [congruence | reflexivity]).
  destruct (send_accepted m (Some arg)) as (k & Hsend & _).
  - rewrite Hc. exact Hne.
  - exact Hl.
  - exists k. rewrite Hsend, Hc. reflexivity.
Qed.

(** C7.  [clearChat] empties the message list whatever it held, and
    changes nothing else: not the input, [isLoading], [isConnected],
    the models, the selected model, nor the waiting calls.  A submit
    after it is accepted as before it, and its user message becomes the
    only message. *)
Theorem clearChat_empties_messages (m : Machine) :
  let m' := step clock m Clear in
  state m' =
    {| messages := [];
       input := input (state m);
       isLoading := isLoading (state m);
       isConnected := isConnected (state m);
       models := models (state m);
       selectedModel := selectedModel (state m) |}
  /\ inflight m' = inflight m
  /\ forall mc,
       content_of mc (input (state m)) <> [] ->
       isLoading (state m) = false ->
       let m'' := step clock m' (Send mc) in
       messages (state m'') =
         [ user_message (clock (reads m)) (content_of mc (input (state m)))
             (clock (S (reads m))) ]
       /\ isLoading (state m'') = true
       /\ List.length (inflight m'') = S (List.length (inflight m)).
Proof.
  intros m'. subst m'. rewrite step_Clear.
  split; [reflexivity |]. split; [reflexivity |].
  intros mc Hc Hl m''. subst m''.
  match goal with
  | |- context [step clock ?M (Send mc)] =>
      destruct (send_accepted M mc Hc Hl) as (k & Hsend & _)
  end.
  rewrite Hsend. cbn.
  repeat split. rewrite length_app. cbn. lia.
Qed.

(** C10.  [clearChat] does not cancel a pending call.  When a submit
    is accepted, the list is cleared while its call waits, and the call
    then settles in any way, the answering message is appended to the
    emptied list: the message list is then a single message with the
    assistant role, the fallback or the generated text, with no user
    message before it. *)
Theorem clear_does_not_cancel (m : Machine) (mc : option jsstring) :
  content_of mc (input (state m)) <> [] ->
  isLoading (state m) = false ->
  let i := List.length (inflight m) in
  let n := S (S (reads m)) in
  (forall e,
      messages (state (steps clock m
                         [Send mc; Clear; Settle i (Fetched (inr e))])) =
        [ error_message (clock n) (clock (S n)) ])
  /\ (forall r,
        ok r = false ->
        messages (state (steps clock m
                           [Send mc; Clear; Settle i (Fetched (inl r))])) =
          [ error_message (clock n) (clock (S n)) ])
  /\ (forall r a,
        ok r = true ->
        messages (state (steps clock m
                           [Send mc; Clear; Settle i (Fetched (inl r));
                            Settle i (Parsed a)])) =
          [ reply_to clock a n ]
        /\ role (reply_to clock a n) = assistant)
  /\ (forall r a,
        ok r = true ->
        messages (state (steps clock m
                           [Send mc; Settle i (Fetched (inl r)); Clear;
                            Settle i (Parsed a)])) =
          [ reply_to clock a n ]).
Proof.
  intros Hc Hl i n. subst i n.
  destruct (send_accepted m mc Hc Hl) as (k & Hsend & Hk).
  cbn [steps fold_left]. rewrite Hsend.
  repeat split.
  - intros e. rewrite step_Clear. cbn [state reads inflight].
    rewrite (settle_failure _ _ _ _ _ k (inr e) Hk I). reflexivity.
  - intros r Hok. rewrite step_Clear. cbn [state reads inflight].
    rewrite (settle_failure _ _ _ _ _ k (inl r) Hk Hok). reflexivity.
  - rewrite step_Clear. cbn [state reads inflight].
    reply_arrives k r a Hk H. body_arrives Hparsed. reflexivity.
  - apply reply_to_role.
  - intros r a Hok.
    reply_arrives k r a Hk Hok.
    rewrite step_Clear. cbn [state reads inflight].
    body_arrives Hparsed. reflexivity.
Qed.

(** C6.  An upstream reply with a non-success status makes the bridge
    answer 500 with the body [{error: "Failed to process your request.
    ..."}], whatever the upstream sent as text; 500 is not a success
    status; and whenever the chat route answers an accepted submit with
    a status that is not a success one, the page appends, after the
    user message, exactly one message with the assistant role and the
    fallback text, clears [isLoading] and has no call left waiting. *)
Theorem non_success_gives_fixed_fallback
        (env : Bridge.Env) (body message model : value) (upstream_reply : Response)
        (m : Machine) (mc : option jsstring) (r : Response) :
  Bridge.request_json env = inl body ->
  Bridge.accepted body message model ->
  Bridge.upstream env Bridge.generate_url
    (Bridge.generate_init (Bridge.model_or_default model) message) =
    inl upstream_reply ->
  ok upstream_reply = false ->
  content_of mc (input (state m)) <> [] ->
  isLoading (state m) = false ->
  ok r = false ->
  (fst (Bridge.run env Bridge.POST) =
     inl {| Bridge.http_status := 500;
            Bridge.payload :=
              VObject
                [ (lit "error",
                   VString (lit "Failed to process your request. Make sure Ollama is running and the model is available.")) ] |}
   /\ ok {| status := 500 |} = false)
  /\
  let i := List.length (inflight m) in
  let m' := steps clock m [Send mc; Settle i (Fetched (inl r))] in
  messages (state m') =
    messages (state m)
    ++ [ user_message (clock (reads m)) (content_of mc (input (state m)))
           (clock (S (reads m)));
         {| id := number_toString (clock (S (S (reads m))) + 1);
            content :=
              VString (lit "Sorry, I encountered an error. Please make sure Ollama is running locally.");
            role := assistant;
            timestamp := clock (S (S (S (reads m)))) |} ]
  /\ isLoading (state m') = false
  /\ inflight m' = inflight m.
Proof.
  intros Hb Hacc Hup Hnok Hc Hl Hr. split.
  - split; [| reflexivity].
    apply (BridgeFacts.POST_upstream_failure env body message model Hb Hacc).
    rewrite Hup. exact Hnok.
  - intros i m'. subst i m'.
    destruct (send_accepted m mc Hc Hl) as (k & Hsend & Hk).
    cbn [steps fold_left]. rewrite Hsend.
    rewrite (settle_failure _ _ _ _ _ k (inl r) Hk Hr).
    cbn. rewrite <- app_assoc. repeat split.
Qed.

(* ------------------------------------------------------------- *)
(** *** At most one call in flight *)

Lemma filter_chat_split (l1 : list Task) (t : Task) (l2 : list Task) :
  filter is_chat (l1 ++ t :: l2) =
  filter is_chat l1 ++ (if is_chat t then [t] else []) ++ filter is_chat l2.
Proof.
  rewrite filter_app. simpl. destruct (is_chat t); reflexivity.
Qed.

(** A call to the chat route that waits for its reply keeps [isLoading]
    until it ends, one await later at most. *)
Lemma awaiting_reply_keeps_loading (url : jsstring) (init : option RequestInit)
      (k : result Response -> prog effect unit) :
  awaiting_reply clock k -> keeps_loading clock 1 Chat (OnFetch url init k).
Proof.
  intros Hk a p Hres s n.
  destruct a as [x | x]; [| discriminate Hres].
  injection Hres as <-.
  specialize (Hk x s n). destruct x as [r | e].
  - destruct (ok r).
    + destruct Hk as (k2 & -> & Hk2). split; [reflexivity |].
      intros a p Hres s' n'.
      destruct a as [y | y]; [discriminate Hres |].
      injection Hres as <-.
      destruct (Hk2 y s' n') as (n'' & ->). left. reflexivity.
    + rewrite Hk. left. reflexivity.
  - rewrite Hk. left. reflexivity.
Qed.

Lemma checkOllamaConnection_waits (s : State) (n : nat) :
  exists k,
    advance clock checkOllamaConnection s n =
      (s, n, Some (OnFetch (lit "/api/health") None k))
    /\ keeps_loading clock 0 Health (OnFetch (lit "/api/health") None k).
Proof.
  eexists. split; [reflexivity |].
  intros a p Hres s' n'.
  destruct a as [x | x]; [| discriminate Hres].
  injection Hres as <-.
  destruct x as [r | e]; cbn; right; reflexivity.
Qed.

Lemma loadModels_waits (s : State) (n : nat) :
  exists k,
    advance clock loadModels s n =
      (s, n, Some (OnFetch (lit "/api/models") None k))
    /\ keeps_loading clock 1 Models (OnFetch (lit "/api/models") None k).
Proof.
  eexists. split; [reflexivity |].
  intros a p Hres s' n'.
  destruct a as [x | x]; [| discriminate Hres].
  injection Hres as <-.
  destruct x as [r | e]; cbn; [| right; reflexivity].
  destruct (ok r); cbn; [| right; reflexivity].
  split; [reflexivity |].
  intros a p Hres s'' n''.
  destruct a as [y | y]; [discriminate Hres |].
  injection Hres as <-.
  destruct y as [data | e]; cbn; [| right; reflexivity].
  destruct (get data (lit "models")); cbn; right; reflexivity.
Qed.

(** A handler other than [sendMessage] that starts to wait without
    touching [isLoading] preserves the invariant. *)
Lemma invoke_preserves (o : Origin) (p : prog effect unit) (m : Machine)
      (w : Suspended) (d : nat) :
  o <> Chat ->
  advance clock p (state m) (reads m) = (state m, reads m, Some w) ->
  keeps_loading clock d o w ->
  one_in_flight clock m -> one_in_flight clock (invoke clock o p m).
Proof.
  intros Ho Hadv Hw (Hb & Hl & Hc).
  unfold invoke. rewrite Hadv.
  assert (Hchat : filter is_chat (inflight m ++ [ {| origin := o; waiting := w |} ])
                  = chat_calls m).
  { rewrite filter_app. cbn. unfold is_chat at 2. cbn.
    destruct o; [congruence | |]; apply app_nil_r. }
  unfold one_in_flight, chat_calls. cbn [state inflight]. rewrite Hchat.
  repeat split; try assumption.
  intros t Hin. apply in_app_or in Hin. destruct Hin as [Hin | [<- | []]].
  - apply Hb, Hin.
  - exists d. exact Hw.
Qed.

Lemma settle_preserves (m : Machine) (i : nat) (a : Answer) :
  one_in_flight clock m -> one_in_flight clock (settle clock i a m).
Proof.
  intros (Hb & Hl & Hc).
  destruct (nth_error (inflight m) i) as [t |] eqn:Hn.
  2:{ unfold settle. rewrite Hn. repeat split; assumption. }
  destruct (resume (waiting t) a) as [p |] eqn:Hr.
  2:{ unfold settle. rewrite Hn, Hr. repeat split; assumption. }
  apply nth_error_split in Hn. destruct Hn as (l1 & l2 & Hin & <-).
  rewrite (settle_at m l1 t l2 a p Hin Hr).
  destruct (Hb t) as [d Hd]. { rewrite Hin. apply in_elt. }
  assert (Hstep :
            match advance clock p (state m) (reads m) with
            | (s', _, None) =>
                origin t = Chat \/ isLoading s' = isLoading (state m)
            | (s', _, Some w) =>
                isLoading s' = isLoading (state m) /\
                exists d', keeps_loading clock d' (origin t) w
            end).
  { destruct d; simpl in Hd; specialize (Hd a p Hr (state m) (reads m));
      destruct (advance clock p (state m) (reads m)) as [[s n] [w |]];
      try tauto.
    destruct Hd as [? Hd]. eauto. }
  clear Hd d.
  unfold chat_calls in Hl, Hc. rewrite Hin, filter_chat_split in Hl, Hc.
  rewrite !length_app in Hc.
  destruct (advance clock p (state m) (reads m)) as [[s n] [w |]].
  - destruct Hstep as (Hsame & d' & Hd').
    unfold one_in_flight, chat_calls. cbn [state inflight].
    rewrite filter_chat_split.
    replace (is_chat {| origin := origin t; waiting := w |})
      with (is_chat t) by reflexivity.
    repeat split.
    + intros t' Hin'. apply in_app_or in Hin'.
      destruct Hin' as [Hin' | [<- | Hin']].
      * apply Hb. rewrite Hin. apply in_or_app. auto.
      * eauto.
      * apply Hb. rewrite Hin. apply in_or_app. simpl. auto.
    + rewrite Hsame. destruct Hl as [Hl | Hl]; [auto |].
      right. destruct (filter is_chat l1); [| discriminate].
      destruct (is_chat t); [discriminate |]. exact Hl.
    + rewrite !length_app. destruct (is_chat t); simpl in *; lia.
  - unfold one_in_flight, chat_calls. cbn [state inflight]. rewrite filter_app.
    repeat split.
    + intros t' Hin'. apply Hb. rewrite Hin.
      apply in_app_or in Hin'. apply in_or_app. simpl. tauto.
    + destruct (is_chat t) eqn:Hchat.
      * right. simpl in Hc.
        destruct (filter is_chat l1); simpl in Hc; [| lia].
        destruct (filter is_chat l2); simpl in Hc; [reflexivity | lia].
      * destruct Hstep as [Ho | Hsame].
        { unfold is_chat in Hchat. rewrite Ho in Hchat. discriminate. }
        rewrite Hsame. destruct Hl as [Hl | Hl]; [auto |]. right. exact Hl.
    + rewrite length_app. destruct (is_chat t); simpl in Hc; lia.
Qed.

Lemma send_preserves (m : Machine) (mc : option jsstring) :
  one_in_flight clock m -> one_in_flight clock (step clock m (Send mc)).
Proof.
  intros Hinv.
  destruct (content_of mc (input (state m))) as [| c rest] eqn:Hc.
  { rewrite send_rejected; auto. }
  destruct (isLoading (state m)) eqn:Hl.
  { rewrite send_rejected; auto. }
  destruct (send_accepted m mc) as (k & Hsend & Hk);
    [rewrite Hc; discriminate | exact Hl |].
  rewrite Hsend. clear Hsend.
  destruct Hinv as (Hb & Hloading & Hcount).
  assert (Hnone : chat_calls m = [])
    by (destruct Hloading as [Habs | H]; [congruence | exact H]).
  unfold one_in_flight, chat_calls. cbn [state inflight].
  rewrite filter_app. fold (chat_calls m). rewrite Hnone.
  repeat split.
  - intros t Hin. apply in_app_or in Hin. destruct Hin as [Hin | [<- | []]].
    + apply Hb, Hin.
    + exists 1%nat. apply awaiting_reply_keeps_loading, Hk.
  - left. reflexivity.
  - cbn. lia.
Qed.

Lemma step_preserves (m : Machine) (e : Event) :
  one_in_flight clock m -> one_in_flight clock (step clock m e).
Proof.
  intros Hinv. destruct e as [| v | sel | | mc | | i a].
  - cbn [step].
    destruct (checkOllamaConnection_waits (state m) (reads m)) as (k & Hadv & Hk).
    pose proof (invoke_preserves Health checkOllamaConnection m _ 0
                  ltac:(discriminate) Hadv Hk Hinv) as Hinv1.
    set (m1 := invoke clock Health checkOllamaConnection m) in *.
    destruct (loadModels_waits (state m1) (reads m1)) as (k' & Hadv' & Hk').
    exact (invoke_preserves Models loadModels m1 _ 1
             ltac:(discriminate) Hadv' Hk' Hinv1).
  - exact Hinv.
  - exact Hinv.
  - change (step clock m Submit) with (step clock m (Send None)).
    apply send_preserves, Hinv.
  - apply send_preserves, Hinv.
  - rewrite step_Clear. exact Hinv.
  - apply settle_preserves, Hinv.
Qed.

Lemma initial_one_in_flight : one_in_flight clock initial.
Proof.
  repeat split.
  - intros t [].
  - right. reflexivity.
  - cbn. lia.
Qed.

Lemma steps_preserve (es : list Event) (m : Machine) :
  one_in_flight clock m -> one_in_flight clock (steps clock m es).
Proof.
  revert m. induction es as [| e es IH]; intros m Hinv.
  - exact Hinv.
  - cbn [steps fold_left]. apply IH, step_preserves, Hinv.
Qed.

(** C3.  While [isLoading] is true a submit, with any argument and any
    input, changes nothing: no message is appended and no call is
    made.  Hence, however the page got where it is from its first
    render, at most one call to the chat route is waiting, and one is
    waiting only while [isLoading] is true. *)
Theorem loading_gates_submit :
  (forall (m : Machine) (mc : option jsstring),
      isLoading (state m) = true -> step clock m (Send mc) = m)
  /\
  (forall es : list Event,
      let m := steps clock initial es in
      (List.length (chat_calls m) <= 1)%nat
      /\ (chat_calls m <> [] -> isLoading (state m) = true)).
Proof.
  split.
  - intros m mc Hl. apply send_rejected. right. exact Hl.
  - intros es m.
    destruct (steps_preserve es initial initial_one_in_flight)
      as (_ & Hloading & Hcount).
    fold m in Hloading, Hcount. split; [exact Hcount |].
    intros Hne. destruct Hloading as [H | H]; [exact H | contradiction].
Qed.

End Clock.

(* --------------------------------------------------------------- *)
(** *** The theorems at the example inputs *)

Lemma successful_exchange_witness :
  let m' := steps Examples.clock Examples.typed_hi
              [ Send None;
                Settle 0 (Fetched (inl {| status := 200 |}));
                Settle 0 (Parsed (inl Examples.hello)) ] in
  messages (state m') =
    [ user_message 1000 (lit "hi") 1001;
      assistant_message 1002 (VString (lit "hello")) 1003 ]
  /\ isLoading (state m') = false.
Proof.
  assert (Hc : content_of None (input (state Examples.typed_hi)) <> [])
    by (vm_compute; discriminate).
  destruct (successful_exchange Examples.clock Examples.typed_hi None
              {| status := 200 |} (inl Examples.hello) Hc eq_refl eq_refl)
    as (Hm & _ & _ & Hl & _).
  split; [exact Hm | exact Hl].
Defined.

Lemma blank_input_is_noop_witness :
  step Examples.clock Examples.typed_blanks Submit = Examples.typed_blanks.
Proof.
  apply (blank_input_is_noop Examples.clock Examples.typed_blanks).
  reflexivity.
Defined.

Lemma loading_gates_submit_witness :
  step Examples.clock Examples.waiting (Send (Some (lit "again"))) = Examples.waiting.
Proof.
  apply (proj1 (loading_gates_submit Examples.clock) Examples.waiting
           (Some (lit "again"))).
  reflexivity.
Defined.

Lemma non_success_gives_fixed_fallback_witness :
  fst (Bridge.run Examples.env_not_found Bridge.POST) =
    inl {| Bridge.http_status := 500;
           Bridge.payload :=
             VObject [ (lit "error", VString Bridge.failed_to_process) ] |}
  /\
  messages (state (steps Examples.clock Examples.typed_hi
                     [ Send None; Settle 0 (Fetched (inl {| status := 500 |})) ])) =
    [ user_message 1000 (lit "hi") 1001;
      error_message 1002 1003 ].
Proof.
  assert (Hc : content_of None (input (state Examples.typed_hi)) <> [])
    by (vm_compute; discriminate).
  assert (Hacc : Bridge.accepted (VObject [ (lit "message", VString (lit "hi")) ])
                   (VString (lit "hi")) VUndefined)
    by (repeat split; reflexivity).
  destruct (non_success_gives_fixed_fallback Examples.clock Examples.env_not_found
              (VObject [ (lit "message", VString (lit "hi")) ])
              (VString (lit "hi")) VUndefined {| status := 404 |}
              Examples.typed_hi None {| status := 500 |}
              eq_refl Hacc eq_refl eq_refl Hc eq_refl eq_refl)
    as ((Hbridge & _) & Hm & _).
  split; [exact Hbridge | exact Hm].
Defined.

Lemma clearChat_empties_messages_witness :
  messages (state (step Examples.clock Examples.answered Clear)) = []
  /\ messages (state (steps Examples.clock Examples.answered
                        [ Clear; Send (Some (lit "next")) ])) =
       [ user_message 1004 (lit "next") 1005 ].
Proof.
  assert (Hc : content_of (Some (lit "next")) (input (state Examples.answered)) <> [])
    by (vm_compute; discriminate).
  destruct (clearChat_empties_messages Examples.clock Examples.answered)
    as (Hs & _ & Hnext).
  destruct (Hnext (Some (lit "next")) Hc eq_refl) as (Hm & _).
  split; [exact (f_equal messages Hs) | exact Hm].
Defined.

Lemma explicit_argument_not_trimmed_witness :
  trim (lit " ") = [] /\
  exists k,
    step Examples.clock initial (Send (Some (lit " "))) =
      {| state :=
           {| messages := [ user_message 1000 (lit " ") 1001 ];
              input := [];
              isLoading := true;
              isConnected := false;
              models := VArray [];
              selectedModel := lit "llama3:latest" |};
         reads := 2;
         inflight :=
           [ {| origin := Chat;
                waiting :=
                  OnFetch chat_url
                    (Some (chat_init (lit " ") (lit "llama3:latest"))) k |} ] |}.
Proof.
  assert (Hne : lit " " <> []) by (vm_compute; discriminate).
  exact (explicit_argument_not_trimmed Examples.clock initial (lit " ")
           Hne eq_refl eq_refl).
Defined.

Lemma clear_does_not_cancel_witness :
  messages (state (steps Examples.clock Examples.typed_hi
                     [ Send None; Clear;
                       Settle 0 (Fetched (inl {| status := 200 |}));
                       Settle 0 (Parsed (inl Examples.hello)) ])) =
    [ assistant_message 1002 (VString (lit "hello")) 1003 ].
Proof.
  assert (Hc : content_of None (input (state Examples.typed_hi)) <> [])
    by (vm_compute; discriminate).
  destruct (clear_does_not_cancel Examples.clock Examples.typed_hi None Hc eq_refl)
    as (_ & _ & Hok & _).
  destruct (Hok {| status := 200 |} (inl Examples.hello) eq_refl) as (Hm & _).
  exact Hm.
Defined.

End SessionFacts.

(* ================================================================= *)
(** ** More on the bridge *)

Module BridgeMore.

Import Bridge Answers.

Lemma js_or_truthy (a : value) (s : jsstring) :
  s <> [] -> truthy (js_or a (VString s)) = true.
Proof.
  intros Hs. unfold js_or. destruct (truthy a) eqn:Ha; [exact Ha |].
  destruct s; [congruence | reflexivity].
Qed.

(** Every run of the handler, by cases: what it answers and what it
    called. *)
Lemma POST_cases (env : Env) :
  run env POST = (inl server_error, [])
  \/ run env POST = (inl bad_request, [])
  \/ exists model message,
       truthy message = true /\
       (run env POST =
          (inl server_error, [ (generate_url, generate_init model message) ])
        \/ exists v,
             truthy v = true /\
             run env POST =
               (inl (generated_text v),
                [ (generate_url, generate_init model message) ])).
Proof.
  unfold POST. cbn.
  destruct (request_json env) as [body | e]; cbn; [| auto].
  destruct (destructure body) as [[message model] | e]; cbn; [| auto].
  destruct (truthy message) eqn:Ht; cbn; [| auto].
  unfold template.
  destruct (ToString_completes model); cbn; [| auto].
  destruct (ToString_completes message); cbn; [| auto].
  right. right. exists model, message. split; [exact Ht |].
  destruct (upstream env _ _) as [r | e]; cbn; [| auto].
  destruct (ok r); cbn.
  - destruct (response_json env r) as [data | e]; cbn; [| auto].
    destruct (get data (lit "response")) as [g | e]; cbn; [| auto].
    right. exists (js_or g (VString no_response)). split; [| reflexivity].
    apply js_or_truthy. discriminate.
  - destruct (response_text env r); cbn; auto.
Qed.

(** A truthy value is sent as a truthy value, or, when it is a number
    that is not finite, as [null]. *)
Lemma wire_truthy (v : value) :
  truthy v = true ->
  truthy (wire v) = true
  \/ (wire v = VNull /\ exists x, v = VNumber x /\ PrimFloat.is_infinity x = true).
Proof.
  destruct v as [| | b | x | s | items | props]; intros Ht;
    try discriminate Ht; try (left; exact Ht); try (left; reflexivity).
  unfold truthy in Ht. apply negb_true_iff, orb_false_iff in Ht.
  destruct Ht as [Hz Hn].
  cbn [wire]. unfold wire_number. rewrite Hn, Hz.
  destruct (PrimFloat.is_infinity x) eqn:Hi; cbn [orb].
  - right. split; [reflexivity |]. exists x. auto.
  - left. unfold truthy. rewrite Hz, Hn. reflexivity.
Qed.

(** X9.  The handler has three answers and no other, and no exception
    leaves it: 400 with the fixed validation error, 500 with the fixed
    failure text, both sent as they are, or 200 with a [response] that the
    handler found truthy.  The [response] that is sent is the JSON form of
    that value: it is never missing, and never the empty string, [false]
    or 0; it is [null] exactly when the value was a number that is not
    finite. *)
Theorem POST_three_answers (env : Env) :
  exists res,
    fst (run env POST) = inl res /\
    ((res = bad_request /\ sent res = payload bad_request)
     \/ (res = server_error /\ sent res = payload server_error)
     \/ exists v,
          truthy v = true
          /\ res = generated_text v
          /\ sent res = VObject [ (lit "response", wire v) ]
          /\ (truthy (wire v) = true
              \/ (wire v = VNull
                  /\ exists x, v = VNumber x /\ PrimFloat.is_infinity x = true))).
Proof.
  destruct (POST_cases env) as [H | [H | (model & message & _ & [H | (v & Hv & H)])]];
    rewrite H; cbn [fst]; eexists; (split; [reflexivity |]).
  - right. left. split; reflexivity.
  - left. split; reflexivity.
  - right. left. split; reflexivity.
  - right. right. exists v. split; [exact Hv |]. split; [reflexivity |].
    split; [| apply wire_truthy, Hv].
    unfold sent, generated_text. cbn [payload].
    apply BridgeFacts.wire_property, BridgeFacts.truthy_defined, Hv.
Qed.

(** X10.  The handler calls out at most once, and only the generation endpoint:
    it never retries.  It answers 200 only after that one call, and 400
    only without any call. *)
Theorem POST_calls_once (env : Env) :
  (snd (run env POST) = []
   \/ exists model message,
        snd (run env POST) = [ (generate_url, generate_init model message) ])
  /\ (forall v, fst (run env POST) = inl (generated_text v) ->
                List.length (snd (run env POST)) = 1%nat)
  /\ (fst (run env POST) = inl bad_request -> snd (run env POST) = []).
Proof.
  destruct (POST_cases env) as [H | [H | (model & message & _ & [H | (v & Hv & H)])]];
    rewrite H; cbn; repeat split; eauto; try discriminate.
Qed.

(** X11.  A request whose message or model cannot be written into the log line,
    an object with a [toString] property of its own, is answered 500 and
    is not forwarded, although its message is truthy. *)
Theorem POST_unprintable_request (env : Env) (body message model : value) :
  request_json env = inl body ->
  get body (lit "message") = inl message ->
  get body (lit "model") = inl model ->
  truthy message = true ->
  ToString_completes (model_or_default model) = false
  \/ ToString_completes message = false ->
  run env POST = (inl server_error, []).
Proof.
  intros Hb Hm Hmo Ht Hs.
  unfold POST. cbn. rewrite Hb. cbn.
  unfold destructure. rewrite Hm, Hmo. cbn. rewrite Ht. cbn.
  unfold template.
  destruct (ToString_completes (model_or_default model)) eqn:Hs1; cbn;
    [| reflexivity].
  destruct Hs as [Hs | Hs]; [discriminate |].
  rewrite Hs. reflexivity.
Qed.

(** X12.  A success status whose body cannot be read, because it is not
    JSON or is the JSON [null], gives the 500 answer after the one call. *)
Theorem POST_unreadable_reply (env : Env) (body message model : value)
        (r : Response) :
  request_json env = inl body ->
  accepted body message model ->
  upstream env generate_url (generate_init (model_or_default model) message) = inl r ->
  ok r = true ->
  (exists e, response_json env r = inr e) \/ response_json env r = inl VNull ->
  run env POST =
    (inl server_error,
     [ (generate_url, generate_init (model_or_default model) message) ]).
Proof.
  intros Hb (Hm & Hmo & Ht & Hs1 & Hs2) Hup Hok Hjson.
  unfold POST. cbn. rewrite Hb. cbn.
  unfold destructure. rewrite Hm, Hmo. cbn. rewrite Ht. cbn.
  unfold template. rewrite Hs1, Hs2. cbn.
  rewrite Hup. cbn. rewrite Hok. cbn.
  destruct Hjson as [[e ->] | ->]; reflexivity.
Qed.

(** X13.  The handler answers 200 exactly when the request is accepted, the
    upstream answers with a success status and its body is JSON other than
    [null]. *)
Theorem POST_success_iff (env : Env) :
  (exists v, fst (run env POST) = inl (generated_text v))
  <->
  (exists body message model r data generated,
      request_json env = inl body
      /\ accepted body message model
      /\ upstream env generate_url
           (generate_init (model_or_default model) message) = inl r
      /\ ok r = true
      /\ response_json env r = inl data
      /\ get data (lit "response") = inl generated).
Proof.
  split.
  - intros [v Hv]. revert Hv. unfold POST. cbn.
    destruct (request_json env) as [body | e] eqn:Hb; cbn; [| discriminate].
    unfold destructure.
    destruct (get body (lit "message")) as [message | e] eqn:Hm; cbn;
      [| discriminate].
    destruct (get body (lit "model")) as [model | e] eqn:Hmo; cbn;
      [| discriminate].
    destruct (truthy message) eqn:Ht; cbn; [| discriminate].
    unfold template.
    destruct (ToString_completes (model_or_default model)) eqn:Hs1; cbn;
      [| discriminate].
    destruct (ToString_completes message) eqn:Hs2; cbn; [| discriminate].
    destruct (upstream env _ _) as [r | e] eqn:Hup; cbn; [| discriminate].
    destruct (ok r) eqn:Hok; cbn.
    + destruct (response_json env r) as [data | e] eqn:Hj; cbn; [| discriminate].
      destruct (get data (lit "response")) as [g | e] eqn:Hg; cbn;
        [| discriminate].
      intros _. exists body, message, model, r, data, g.
      unfold accepted. auto 10.
    + destruct (response_text env r); cbn; discriminate.
  - intros (body & message & model & r & data & g
            & Hb & (Hm & Hmo & Ht & Hs1 & Hs2) & Hup & Hok & Hj & Hg).
    exists (js_or g (VString no_response)).
    unfold POST. cbn. rewrite Hb. cbn.
    unfold destructure. rewrite Hm, Hmo. cbn. rewrite Ht. cbn.
    unfold template. rewrite Hs1, Hs2. cbn.
    rewrite Hup. cbn. rewrite Hok. cbn. rewrite Hj. cbn. rewrite Hg.
    reflexivity.
Qed.

(** X14.  Every falsy message is refused like the empty one: a message
    that is [null], [false], the number 0 or missing is answered 400 with
    the validation error, without an outbound call. *)
Theorem POST_refuses_falsy_message (env : Env) (body message : value) :
  request_json env = inl body ->
  get body (lit "message") = inl message ->
  truthy message = false ->
  run env POST = (inl bad_request, []).
Proof.
  intros Hb Hg Ht.
  exact (BridgeFacts.POST_falsy_message env body message Hb Hg Ht).
Qed.

(** X15.  A request without a readable body is not a validation error: when
    the body is not JSON, or is the JSON [null], the handler answers 500
    with the failure text, not 400, and makes no outbound call. *)
Theorem POST_body_unreadable (env : Env) :
  (exists e, request_json env = inr e) \/ request_json env = inl VNull ->
  run env POST = (inl server_error, [])
  /\ fst (run env POST) <> inl bad_request.
Proof.
  intros H.
  pose proof (BridgeFacts.POST_unreadable_body env H) as Hrun.
  split; [exact Hrun |]. rewrite Hrun. discriminate.
Qed.

End BridgeMore.

(* ================================================================= *)
(** ** Properties of the running page *)

Module ReachFacts.

Import Session Reach.

Section Clock.
Variable clock : nat -> Z.

Lemma checkOllamaConnection_starts (s : State) (n : nat) :
  exists k,
    advance clock checkOllamaConnection s n =
      (s, n, Some (OnFetch (lit "/api/health") None k))
    /\ awaiting_health clock k.
Proof.
  eexists. split; [reflexivity |].
  intros [r | e] s' n'; reflexivity.
Qed.

Lemma loadModels_starts (s : State) (n : nat) :
  exists k,
    advance clock loadModels s n =
      (s, n, Some (OnFetch (lit "/api/models") None k))
    /\ awaiting_models clock k.
Proof.
  eexists. split; [reflexivity |].
  intros [r | e] s' n'; cbn; [| reflexivity].
  destruct (ok r); cbn; [| reflexivity].
  eexists. split; [reflexivity |].
  intros [data | e] s'' n''; cbn; [| reflexivity].
  destruct (get data (lit "models")); reflexivity.
Qed.


Lemma advance_shaped (t : Task) (a : Answer) (p : prog effect unit) (s : State) (n : nat) :
  shaped clock t ->
  resume (waiting t) a = Some p ->
  exists s' n' next,
    advance clock p s n = (s', n', next) /\
    match next with
    | Some w => s' = s /\ shaped clock {| origin := origin t; waiting := w |}
    | None => ends (origin t) s s'
    end.
Proof.
  destruct t as [o w]. unfold shaped. cbn [origin waiting].
  intros Hsh Hres.
  destruct w as [url init k | r k]; destruct a as [x | x]; try discriminate Hres;
    injection Hres as <-.
  - destruct o.
    + specialize (Hsh x s n). destruct x as [r | e].
      * destruct (ok r).
        -- destruct Hsh as (k2 & -> & Hk2). do 3 eexists. split; [reflexivity |].
           split; [reflexivity | exact Hk2].
        -- rewrite Hsh. do 3 eexists. split; [reflexivity |].
           cbn. eexists. split; [| reflexivity]. reflexivity.
      * rewrite Hsh. do 3 eexists. split; [reflexivity |].
        cbn. eexists. split; [| reflexivity]. reflexivity.
    + rewrite (Hsh x s n). do 3 eexists. split; [reflexivity |].
      cbn. eauto.
    + specialize (Hsh x s n). destruct x as [r | e].
      * destruct (ok r).
        -- destruct Hsh as (k2 & -> & Hk2). do 3 eexists. split; [reflexivity |].
           split; [reflexivity | exact Hk2].
        -- rewrite Hsh. do 3 eexists. split; [reflexivity |]. cbn. auto.
      * rewrite Hsh. do 3 eexists. split; [reflexivity |]. cbn. auto.
  - destruct o.
    + destruct (Hsh x s n) as (n' & ->). do 3 eexists. split; [reflexivity |].
      cbn. eexists. split; [| reflexivity]. apply SessionFacts.reply_to_role.
    + contradiction.
    + rewrite (Hsh x s n). do 3 eexists. split; [reflexivity |].
      cbn. unfold models_loaded. destruct x as [data | e]; [| auto].
      destruct (get data (lit "models")); eauto.
Qed.

Lemma step_Mount (m : Machine) :
  exists kh km,
    step clock m Mount =
      {| state := state m; reads := reads m;
         inflight :=
           inflight m ++
           [ {| origin := Health; waiting := OnFetch (lit "/api/health") None kh |};
             {| origin := Models; waiting := OnFetch (lit "/api/models") None km |} ] |}
    /\ awaiting_health clock kh /\ awaiting_models clock km.
Proof.
  destruct (checkOllamaConnection_starts (state m) (reads m)) as (kh & Hh & Hkh).
  destruct (loadModels_starts (state m) (reads m)) as (km & Hm & Hkm).
  exists kh, km. split; [| split; assumption].
  cbn [step]. unfold invoke at 2. rewrite Hh.
  unfold invoke. cbn [state reads inflight]. rewrite Hm.
  rewrite <- app_assoc. reflexivity.
Qed.

(** A settlement, by cases. *)
Lemma settle_cases (m : Machine) (i : nat) (a : Answer) :
  Forall (shaped clock) (inflight m) ->
  settle clock i a m = m
  \/ exists l1 t l2 n',
       inflight m = l1 ++ t :: l2 /\ i = List.length l1 /\
       ((exists w,
           settle clock i a m =
             {| state := state m; reads := n';
                inflight := l1 ++ {| origin := origin t; waiting := w |} :: l2 |}
           /\ shaped clock {| origin := origin t; waiting := w |})
        \/ (exists s',
              settle clock i a m = {| state := s'; reads := n'; inflight := l1 ++ l2 |}
              /\ ends (origin t) (state m) s')).
Proof.
  intros Hall.
  destruct (nth_error (inflight m) i) as [t |] eqn:Hn.
  2:{ left. unfold settle. rewrite Hn. reflexivity. }
  destruct (resume (waiting t) a) as [p |] eqn:Hr.
  2:{ left. unfold settle. rewrite Hn, Hr. reflexivity. }
  right.
  apply nth_error_split in Hn. destruct Hn as (l1 & l2 & Hin & <-).
  assert (Hsh : shaped clock t).
  { rewrite Forall_forall in Hall. apply Hall. rewrite Hin. apply in_elt. }
  destruct (advance_shaped t a p (state m) (reads m) Hsh Hr)
    as (s' & n' & next & Hadv & Hnext).
  exists l1, t, l2, n'. split; [exact Hin |]. split; [reflexivity |].
  rewrite (SessionFacts.settle_at clock m l1 t l2 a p Hin Hr), Hadv.
  destruct next as [w |].
  - destruct Hnext as [-> Hw]. left. exists w. split; [reflexivity | exact Hw].
  - right. exists s'. split; [reflexivity | exact Hnext].
Qed.

Lemma chat_count_split (l1 : list Task) (t : Task) (l2 : list Task) :
  List.length (filter is_chat (l1 ++ t :: l2)) =
  (List.length (filter is_chat l1) + (if is_chat t then 1 else 0)
   + List.length (filter is_chat l2))%nat.
Proof.
  rewrite SessionFacts.filter_chat_split, !length_app.
  destruct (is_chat t); cbn; lia.
Qed.

Lemma is_chat_origin (t : Task) : is_chat t = true <-> origin t = Chat.
Proof. unfold is_chat. destruct (origin t); split; congruence. Qed.

Lemma ends_other (o : Origin) (s s' : State) :
  o <> Chat -> ends o s s' ->
  isLoading s' = isLoading s /\ messages s' = messages s.
Proof.
  destruct o; cbn; [congruence | |]; intros _.
  - intros [b ->]. split; reflexivity.
  - intros [-> | [v ->]]; split; reflexivity.
Qed.

Lemma settle_coherent (m : Machine) (i : nat) (a : Answer) :
  coherent clock m -> coherent clock (settle clock i a m).
Proof.
  intros (Hall & Hload).
  destruct (settle_cases m i a Hall)
    as [-> | (l1 & t & l2 & n' & Hin & _ & [(w & -> & Hw) | (s' & -> & Hend)])].
  - split; assumption.
  - unfold coherent, chat_calls in *. cbn [state inflight]. rewrite Hin in *.
    split.
    + apply Forall_app in Hall. destruct Hall as [H1 H2].
      apply Forall_app. split; [exact H1 |].
      inversion H2; subst. constructor; assumption.
    + rewrite chat_count_split in *.
      replace (is_chat {| origin := origin t; waiting := w |}) with (is_chat t)
        by reflexivity.
      destruct Hload as [[Hl Hc] | [Hl Hc]]; [left | right]; split; auto.
      rewrite SessionFacts.filter_chat_split in *.
      replace (is_chat {| origin := origin t; waiting := w |}) with (is_chat t)
        by reflexivity.
      destruct (filter is_chat l1); [| discriminate].
      destruct (is_chat t); [discriminate |]. exact Hc.
  - unfold coherent, chat_calls in *. cbn [state inflight]. rewrite Hin in *.
    split.
    + apply Forall_app in Hall. destruct Hall as [H1 H2].
      apply Forall_app. split; [exact H1 |]. inversion H2; assumption.
    + rewrite chat_count_split in Hload. rewrite filter_app, length_app.
      rewrite SessionFacts.filter_chat_split in Hload.
      destruct (is_chat t) eqn:Hchat.
      * apply is_chat_origin in Hchat. rewrite Hchat in Hend.
        destruct Hend as (msg & _ & ->). right. split; [reflexivity |].
        destruct Hload as [[_ Hc] | [_ Hc]].
        -- destruct (filter is_chat l1); cbn in Hc; [| lia].
           destruct (filter is_chat l2); cbn in Hc; [reflexivity | lia].
        -- destruct (filter is_chat l1); discriminate.
      * assert (Ho : origin t <> Chat).
        { intros Ho. apply is_chat_origin in Ho. congruence. }
        destruct (ends_other _ _ _ Ho Hend) as [Hl _]. rewrite Hl.
        destruct Hload as [[Hl' Hc] | [Hl' Hc]]; [left | right]; split; auto;
          try lia; try (rewrite filter_app; exact Hc).
Qed.

Lemma step_Submit (m : Machine) : step clock m Submit = step clock m (Send None).
Proof. reflexivity. Qed.

Lemma send_coherent (m : Machine) (mc : option jsstring) :
  coherent clock m -> coherent clock (step clock m (Send mc)).
Proof.
  intros Hco.
  destruct (content_of mc (input (state m))) as [| c rest] eqn:Hc.
  { rewrite SessionFacts.send_rejected; auto. }
  destruct (isLoading (state m)) eqn:Hl.
  { rewrite SessionFacts.send_rejected; auto. }
  destruct (SessionFacts.send_accepted clock m mc) as (k & -> & Hk);
    [rewrite Hc; discriminate | exact Hl |].
  destruct Hco as (Hall & Hload).
  destruct Hload as [[Habs _] | [_ Hnone]]; [congruence |].
  unfold coherent, chat_calls in *. cbn [state inflight]. split.
  - apply Forall_app. split; [exact Hall |]. constructor; [exact Hk | constructor].
  - left. split; [reflexivity |]. rewrite filter_app, Hnone. reflexivity.
Qed.

Lemma step_coherent (m : Machine) (e : Event) :
  coherent clock m -> coherent clock (step clock m e).
Proof.
  intros Hco. destruct e as [| v | sel | | mc | | i a].
  - destruct (step_Mount m) as (kh & km & -> & Hkh & Hkm).
    destruct Hco as (Hall & Hload).
    unfold coherent, chat_calls in *. cbn [state inflight]. split.
    + apply Forall_app. split; [exact Hall |].
      constructor; [exact Hkh |]. constructor; [exact Hkm | constructor].
    + rewrite filter_app. cbn. rewrite app_nil_r. exact Hload.
  - exact Hco.
  - exact Hco.
  - rewrite step_Submit. apply send_coherent, Hco.
  - apply send_coherent, Hco.
  - rewrite SessionFacts.step_Clear. exact Hco.
  - apply settle_coherent, Hco.
Qed.

Lemma initial_coherent : coherent clock initial.
Proof. split; [constructor | right; split; reflexivity]. Qed.

Lemma steps_coherent (es : list Event) (m : Machine) :
  coherent clock m -> coherent clock (steps clock m es).
Proof.
  revert m. induction es as [| e es IH]; intros m Hco; [exact Hco |].
  cbn [steps fold_left]. apply IH, step_coherent, Hco.
Qed.

Lemma reachable_coherent (m : Machine) : reachable clock m -> coherent clock m.
Proof. intros [es ->]. apply steps_coherent, initial_coherent. Qed.

Lemma steps_snoc (m : Machine) (es : list Event) (e : Event) :
  steps clock m (es ++ [e]) = step clock (steps clock m es) e.
Proof. unfold steps. rewrite fold_left_app. reflexivity. Qed.

(** X1.  On every machine that the page reaches, [isLoading] is true
    exactly when one call to the chat route waits, and false exactly when
    none does. *)
Theorem loading_iff_call_waiting (es : list Event) :
  let m := steps clock initial es in
  (isLoading (state m) = true <-> exists t, chat_calls m = [t])
  /\ (isLoading (state m) = false <-> chat_calls m = []).
Proof.
  intros m.
  destruct (steps_coherent es initial initial_coherent) as (_ & Hload).
  fold m in Hload.
  destruct Hload as [[Hl Hc] | [Hl Hc]]; rewrite Hl, ?Hc.
  - destruct (chat_calls m) as [| t [| t' l]]; try discriminate Hc.
    split; split; intros H; try discriminate; eauto.
  - split; split; intros H; try discriminate; auto.
    destruct H; discriminate.
Qed.


Lemma origin_eqb_eq (a b : Origin) : origin_eqb a b = true <-> a = b.
Proof. destruct a, b; cbn; split; congruence. Qed.

Lemma chat_waiting_loading (m : Machine) (t : Task) :
  coherent clock m -> In t (inflight m) -> origin t = Chat ->
  isLoading (state m) = true.
Proof.
  intros (_ & [[Hl _] | [_ Hnone]]) Hin Ho; [exact Hl |].
  assert (Hin' : In t (chat_calls m)).
  { unfold chat_calls. apply filter_In. split; [exact Hin |].
    apply is_chat_origin, Ho. }
  rewrite Hnone in Hin'. destruct Hin'.
Qed.

(** What one event does to the state of a coherent machine. *)
Lemma step_state_cases (m : Machine) (e : Event) :
  coherent clock m ->
  state (step clock m e) = state m
  \/ (exists v, e = Change v /\ state (step clock m e) = set_input v (state m))
  \/ (exists sel, e = Select sel
                  /\ state (step clock m e) = set_selectedModel sel (state m))
  \/ (exists msg,
        (e = Submit \/ exists mc, e = Send mc)
        /\ role msg = user
        /\ isLoading (state m) = false
        /\ state (step clock m e) =
             set_isLoading true (set_input [] (appended msg (state m))))
  \/ (e = Clear /\ state (step clock m e) = set_messages (fun _ => []) (state m))
  \/ (exists i a t,
        e = Settle i a /\ nth_error (inflight m) i = Some t
        /\ ends (origin t) (state m) (state (step clock m e))).
Proof.
  intros Hco.
  assert (Hsend : forall mc,
             state (step clock m (Send mc)) = state m
             \/ exists msg,
                  role msg = user /\ isLoading (state m) = false
                  /\ state (step clock m (Send mc)) =
                       set_isLoading true (set_input [] (appended msg (state m)))).
  { intros mc.
    destruct (content_of mc (input (state m))) as [| c rest] eqn:Hc.
    { left. rewrite SessionFacts.send_rejected; auto. }
    destruct (isLoading (state m)) eqn:Hl.
    { left. rewrite SessionFacts.send_rejected; auto. }
    destruct (SessionFacts.send_accepted clock m mc) as (k & -> & _);
      [rewrite Hc; discriminate | exact Hl |].
    right. eexists. split; [| split; [reflexivity | reflexivity]]. reflexivity. }
  destruct e as [| v | sel | | mc | | i a].
  - left. destruct (step_Mount m) as (kh & km & -> & _). reflexivity.
  - right. left. eauto.
  - right. right. left. eauto.
  - rewrite step_Submit. destruct (Hsend None) as [H | (msg & H1 & H2 & H3)];
      [left; exact H |].
    right. right. right. left. exists msg. auto.
  - destruct (Hsend mc) as [H | (msg & H1 & H2 & H3)]; [left; exact H |].
    right. right. right. left. exists msg. eauto 6.
  - right. right. right. right. left. split; reflexivity.
  - cbn [step].
    destruct (settle_cases m i a (proj1 Hco))
      as [-> | (l1 & t & l2 & n' & Hin & -> & [(w & -> & _) | (s' & -> & Hend)])].
    + left. reflexivity.
    + left. reflexivity.
    + right. right. right. right. right. exists (List.length l1), a, t.
      split; [reflexivity |]. split; [| exact Hend].
      rewrite Hin. apply (split_at l1 t l2).
Qed.


Lemma settles_origin (o : Origin) (m : Machine) (i : nat) (a : Answer) (t : Task) :
  nth_error (inflight m) i = Some t ->
  settles o m (Settle i a) = origin_eqb (origin t) o.
Proof. intros H. cbn. rewrite H. reflexivity. Qed.

(** X2.  Nothing but the settlement of the waiting call ends the loading
    state: on a reachable machine with [isLoading] true, every other event,
    [clearChat], typing, a new submit, the mount effect, the settlement of
    another call, leaves [isLoading] true and the call waiting. *)
Theorem loading_until_settled (es : list Event) (e : Event) :
  let m := steps clock initial es in
  isLoading (state m) = true ->
  settles Chat m e = false ->
  isLoading (state (step clock m e)) = true
  /\ List.length (chat_calls (step clock m e)) = 1%nat.
Proof.
  intros m Hl Hs.
  assert (Hco : coherent clock m) by apply steps_coherent, initial_coherent.
  assert (Hl' : isLoading (state (step clock m e)) = true).
  { destruct (step_state_cases m e Hco)
      as [-> | [(v & _ & ->) | [(sel & _ & ->) | [(msg & _ & _ & Habs & _)
          | [(_ & ->) | (i & a & t & -> & Hn & Hend)]]]]]; try exact Hl.
    - congruence.
    - rewrite (settles_origin Chat m i a t Hn) in Hs.
      assert (Ho : origin t <> Chat).
      { intros Ho. apply origin_eqb_eq in Ho. congruence. }
      destruct (ends_other _ _ _ Ho Hend) as [-> _]. exact Hl. }
  split; [exact Hl' |].
  destruct (step_coherent m e Hco) as (_ & [[_ Hc] | [Habs _]]);
    [exact Hc | congruence].
Qed.

(** X3.  On a reachable machine the settlement of the call to the chat
    route either leaves the state as it is, the call still waiting (the
    status has come and the body has not, or the answer is not the awaited
    one), or appends exactly one assistant message and clears [isLoading],
    changing nothing else, after which no call to the chat route waits. *)
Theorem chat_settlement (es : list Event) (i : nat) (a : Answer) :
  let m := steps clock initial es in
  let m' := step clock m (Settle i a) in
  settles Chat m (Settle i a) = true ->
  (state m' = state m /\ List.length (chat_calls m') = 1%nat)
  \/ exists msg,
       role msg = assistant
       /\ state m' = set_isLoading false (appended msg (state m))
       /\ chat_calls m' = [].
Proof.
  intros m m' Hs.
  assert (Hco : coherent clock m) by apply steps_coherent, initial_coherent.
  assert (Hco' : coherent clock m') by apply step_coherent, Hco.
  cbn in Hs.
  destruct (nth_error (inflight m) i) as [t |] eqn:Hn; [| discriminate].
  apply origin_eqb_eq in Hs.
  assert (Hl : isLoading (state m) = true).
  { apply (chat_waiting_loading m t Hco); [| exact Hs].
    eapply nth_error_In, Hn. }
  destruct (step_state_cases m (Settle i a) Hco)
    as [H | [(v & Habs & _) | [(sel & Habs & _) | [(msg & [Habs | [mc Habs]] & _)
        | [(Habs & _) | (i' & a' & t' & He & Hn' & Hend)]]]]]; try discriminate.
  - left. split; [exact H |].
    destruct Hco' as (_ & [[_ Hc] | [Habs _]]); [exact Hc |].
    pose proof (f_equal isLoading H : isLoading (state m') = _) as Hsame.
    congruence.
  - injection He as <- <-. rewrite Hn in Hn'. injection Hn' as <-.
    rewrite Hs in Hend. destruct Hend as (msg & Hrole & Hst).
    right. exists msg. split; [exact Hrole |]. split; [exact Hst |].
    destruct Hco' as (_ & [[Habs _] | [_ Hc]]); [| exact Hc].
    pose proof (f_equal isLoading Hst : isLoading (state m') = _) as Hsame.
    rewrite Habs in Hsame. discriminate Hsame.
Qed.

(** X4.  The message list only grows: on a reachable machine every event
    other than [clearChat] keeps the messages as a prefix and appends at
    most one message. *)
Theorem messages_append_only (es : list Event) (e : Event) :
  let m := steps clock initial es in
  is_Clear e = false ->
  messages (state (step clock m e)) = messages (state m)
  \/ exists msg,
       messages (state (step clock m e)) = messages (state m) ++ [msg].
Proof.
  intros m Hc.
  assert (Hco : coherent clock m) by apply steps_coherent, initial_coherent.
  destruct (step_state_cases m e Hco)
    as [-> | [(v & _ & ->) | [(sel & _ & ->) | [(msg & _ & _ & _ & ->)
        | [(-> & _) | (i & a & t & -> & Hn & Hend)]]]]]; auto.
  - right. exists msg. reflexivity.
  - discriminate.
  - destruct (origin t); unfold ends in Hend.
    + destruct Hend as (msg & _ & ->). right. exists msg. reflexivity.
    + destruct Hend as (b & ->). left. reflexivity.
    + destruct Hend as [-> | (v & ->)]; left; reflexivity.
Qed.

Lemma exchanges_snoc (k : nat) :
  exchanges k ++ [user; assistant] = exchanges (S k).
Proof.
  induction k as [| k IH]; [reflexivity |].
  cbn [exchanges app]. rewrite IH. reflexivity.
Qed.


Lemma step_settled_roles (m : Machine) (e : Event) :
  coherent clock m -> is_Clear e = false ->
  settled_roles m -> settled_roles (step clock m e).
Proof.
  intros Hco Hc [k Hk]. unfold settled_roles, roles in *.
  destruct (step_state_cases m e Hco)
    as [-> | [(v & _ & ->) | [(sel & _ & ->) | [(msg & _ & Hrole & Hl & ->)
        | [(-> & _) | (i & a & t & -> & Hn & Hend)]]]]]; eauto.
  - exists k. cbn. rewrite map_app, Hk, Hl, app_nil_r. cbn. rewrite Hrole.
    reflexivity.
  - discriminate.
  - destruct (origin t) eqn:Ho; unfold ends in Hend.
    + assert (Hl : isLoading (state m) = true).
      { apply (chat_waiting_loading m t Hco); [| exact Ho].
        eapply nth_error_In, Hn. }
      destruct Hend as (msg & Hrole & ->). exists (S k).
      cbn. rewrite map_app, Hk, Hl, <- app_assoc. cbn. rewrite Hrole.
      rewrite app_nil_r. apply exchanges_snoc.
    + destruct Hend as (b & ->). exists k. exact Hk.
    + destruct Hend as [-> | (v & ->)]; exists k; exact Hk.
Qed.

Lemma no_clear_settled_roles (es : list Event) :
  forallb (fun e => negb (is_Clear e)) es = true ->
  settled_roles (steps clock initial es).
Proof.
  intros Hes.
  induction es as [| e es IH] using rev_ind.
  - exists 0%nat. reflexivity.
  - rewrite forallb_app in Hes. apply andb_true_iff in Hes.
    destruct Hes as [Hes He]. cbn in He. rewrite andb_true_r in He.
    apply negb_true_iff in He.
    rewrite steps_snoc.
    apply step_settled_roles; [| exact He | exact (IH Hes)].
    apply steps_coherent, initial_coherent.
Qed.

(** X5.  As long as the chat is not cleared, the roles alternate: the
    messages are completed exchanges, a user message followed by an
    assistant message, and after them the user message of the exchange
    under way exactly while [isLoading] is true. *)
Theorem roles_alternate (es : list Event) :
  forallb (fun e => negb (is_Clear e)) es = true ->
  let m := steps clock initial es in
  exists k,
    roles m = exchanges k ++ (if isLoading (state m) then [user] else []).
Proof.
  intros Hes m. exact (no_clear_settled_roles es Hes).
Qed.

(** X6.  Who writes what: on a reachable machine the selected model
    changes only by the selector, [isConnected] only when a health check
    settles, and the models only when the loading of the models settles.
    In particular no exchange with the chat route, and no [clearChat],
    touches any of the three. *)
Theorem state_writers (es : list Event) (e : Event) :
  let m := steps clock initial es in
  let m' := step clock m e in
  ((forall sel, e <> Select sel) ->
   selectedModel (state m') = selectedModel (state m))
  /\ (settles Health m e = false ->
      isConnected (state m') = isConnected (state m))
  /\ (settles Models m e = false -> models (state m') = models (state m)).
Proof.
  intros m m'. subst m'.
  assert (Hco : coherent clock m) by apply steps_coherent, initial_coherent.
  destruct (step_state_cases m e Hco)
    as [-> | [(v & _ & ->) | [(sel & -> & ->) | [(msg & _ & _ & _ & ->)
        | [(_ & ->) | (i & a & t & -> & Hn & Hend)]]]]]; auto.
  - repeat split; auto. intros H. destruct (H sel eq_refl).
  - rewrite !(settles_origin _ m i a t Hn).
    destruct (origin t); unfold ends in Hend.
    + destruct Hend as (msg & _ & ->). auto.
    + destruct Hend as (b & ->). repeat split; auto. discriminate.
    + destruct Hend as [-> | (v & ->)]; repeat split; auto; discriminate.
Qed.

(** X7.  The mount effect calls the health route and then the models
    route, both without options, and changes no state.  When the health
    call settles, [isConnected] becomes the [ok] of its reply, and false
    when the call is rejected, also when it was true before; nothing else
    changes. *)
Theorem connection_check (m : Machine) (a : result Response) :
  let i := List.length (inflight m) in
  let m1 := step clock m Mount in
  let m2 := step clock m1 (Settle i (Fetched a)) in
  state m1 = state m
  /\ List.map (fun t => (origin t,
                         match waiting t with
                         | OnFetch url init _ => Some (url, init)
                         | OnJson _ _ => None
                         end))
       (skipn i (inflight m1)) =
     [ (Health, Some (lit "/api/health", None));
       (Models, Some (lit "/api/models", None)) ]
  /\ state m2 =
       set_isConnected (match a with inl r => ok r | inr _ => false end) (state m)
  /\ List.length (inflight m2) = S i.
Proof.
  intros i m1 m2. subst i m1 m2.
  destruct (step_Mount m) as (kh & km & -> & Hkh & _).
  cbn [state inflight].
  split; [reflexivity |]. split.
  { rewrite skipn_app, skipn_all, Nat.sub_diag. reflexivity. }
  cbn [step].
  erewrite SessionFacts.settle_at; [| reflexivity | reflexivity].
  cbn [state reads]. rewrite (Hkh a (state m) (reads m)).
  cbn [state inflight]. split; [reflexivity |].
  rewrite length_app. cbn. lia.
Qed.

(** X8.  When the models route answers with a success status and a body
    that is JSON other than [null], [models] becomes the [models] property
    of the body, which is [undefined] when the body has none; nothing else
    changes.  On any other outcome, a rejection, a non-success status, a
    body that cannot be read, the state stays as it was. *)
Theorem models_loading (m : Machine) :
  let i := S (List.length (inflight m)) in
  let m1 := step clock m Mount in
  (forall r data loaded,
      ok r = true ->
      get data (lit "models") = inl loaded ->
      state (steps clock m1 [Settle i (Fetched (inl r)); Settle i (Parsed (inl data))]) =
        set_models loaded (state m))
  /\ (forall r a,
        ok r = true ->
        (exists e, a = inr e) \/ a = inl VNull ->
        state (steps clock m1 [Settle i (Fetched (inl r)); Settle i (Parsed a)]) =
          state m)
  /\ (forall a,
        match a with inl r => ok r = false | inr _ => True end ->
        state (step clock m1 (Settle i (Fetched a))) = state m).
Proof.
  intros i m1. subst i m1.
  destruct (step_Mount m) as (kh & km & -> & _ & Hkm).
  set (health := {| origin := Health;
                    waiting := OnFetch (lit "/api/health") None kh |}).
  assert (Hlen : S (List.length (inflight m)) = List.length (inflight m ++ [health]))
    by (rewrite length_app; cbn; lia).
  assert (Hin : forall w,
             inflight m ++ [health; {| origin := Models; waiting := w |}] =
             (inflight m ++ [health]) ++ {| origin := Models; waiting := w |} :: [])
    by (intros w; rewrite <- app_assoc; reflexivity).
  set (M := {| state := state m; reads := reads m;
               inflight :=
                 inflight m ++
                 [health;
                  {| origin := Models;
                     waiting := OnFetch (lit "/api/models") None km |}] |}).
  assert (Hfetch : forall a,
             settle clock (S (List.length (inflight m))) (Fetched a) M =
             match advance clock (km a) (state m) (reads m) with
             | (s, n, None) =>
                 {| state := s; reads := n; inflight := (inflight m ++ [health]) ++ [] |}
             | (s, n, Some w) =>
                 {| state := s; reads := n;
                    inflight := (inflight m ++ [health])
                                ++ [ {| origin := Models; waiting := w |} ] |}
             end).
  { intros a. rewrite Hlen.
    apply (SessionFacts.settle_at clock M (inflight m ++ [health])
             {| origin := Models; waiting := OnFetch (lit "/api/models") None km |}
             [] (Fetched a) (km a)); [apply Hin | reflexivity]. }
  assert (Hok : forall r a,
             ok r = true ->
             state (steps clock M
                      [Settle (S (List.length (inflight m))) (Fetched (inl r));
                       Settle (S (List.length (inflight m))) (Parsed a)]) =
             models_loaded a (state m)).
  { intros r a Hr. cbn [steps fold_left step]. rewrite Hfetch.
    pose proof (Hkm (inl r) (state m) (reads m)) as H. cbn in H. rewrite Hr in H.
    destruct H as (k2 & -> & Hk2).
    rewrite Hlen.
    erewrite SessionFacts.settle_at; [| reflexivity | reflexivity].
    cbn [state reads]. rewrite (Hk2 a (state m) (reads m)). reflexivity. }
  split; [| split].
  - intros r data loaded Hr Hget. rewrite (Hok r (inl data) Hr).
    unfold models_loaded. rewrite Hget. reflexivity.
  - intros r a Hr Ha. rewrite (Hok r a Hr).
    destruct Ha as [[e ->] | ->]; reflexivity.
  - intros a Ha. cbn [step]. rewrite Hfetch.
    pose proof (Hkm a (state m) (reads m)) as H.
    destruct a as [r | e]; [rewrite Ha in H |]; rewrite H; reflexivity.
Qed.

End Clock.

End ReachFacts.

(* ================================================================= *)
(** ** Properties of what the page shows *)




Module ViewFacts.
Import Session Reach View.

Section Clock.
Variable clock : nat -> Z.


Lemma prompts_not_empty (p : Prompt) :
  In p SUGGESTED_PROMPTS -> prompt p <> [].
Proof.
  intros [<- | [<- | [<- | [<- | []]]]]; vm_compute; discriminate.
Qed.

(** X17.  A click on the card of a suggested prompt is ignored while
    [isLoading] is true.  Otherwise it sends that prompt as it is written,
    whether or not the page is connected and whatever is in the input, and
    it clears the input. *)
Theorem suggested_prompt_click (m : Machine) (p : Prompt) :
  In p SUGGESTED_PROMPTS ->
  let m' := step clock m (Send (Some (prompt p))) in
  (isLoading (state m) = true -> m' = m)
  /\ (isLoading (state m) = false ->
      messages (state m') =
        messages (state m)
        ++ [ user_message (clock (reads m)) (prompt p) (clock (S (reads m))) ]
      /\ input (state m') = []
      /\ isLoading (state m') = true
      /\ exists k,
           inflight m' =
             inflight m ++
             [ {| origin := Chat;
                  waiting :=
                    OnFetch chat_url
                      (Some (chat_init (prompt p) (selectedModel (state m)))) k |} ]).
Proof.
  intros Hin m'. subst m'. split.
  - intros Hl. apply SessionFacts.send_rejected. right. exact Hl.
  - intros Hl.
    pose proof (prompts_not_empty p Hin) as Hne.
    assert (Hc : content_of (Some (prompt p)) (input (state m)) = prompt p)
      by (destruct (prompt p); [congruence | reflexivity]).
    destruct (SessionFacts.send_accepted clock m (Some (prompt p))) as (k & -> & _);
      [rewrite Hc; exact Hne | exact Hl |].
    rewrite Hc. cbn. repeat split. exists k. reflexivity.
Qed.

(** X18.  When the chat is cleared while a call waits, right after the
    submit or after the status of the reply has come, the page is loading
    without showing it: the message card and its dots are gone, the welcome
    section with the cards is shown, the submit button is disabled, and
    every click on a card and every submit is ignored until the call
    settles. *)
Theorem cleared_while_waiting (m : Machine) (mc : option jsstring) :
  content_of mc (input (state m)) <> [] ->
  isLoading (state m) = false ->
  let m' := steps clock m [Send mc; Clear] in
  isLoading (state m') = true
  /\ welcome (state m') = true
  /\ spinner (state m') = false
  /\ clearButton (state m') = false
  /\ submitDisabled (state m') = true
  /\ List.length (inflight m') = S (List.length (inflight m))
  /\ (forall messageContent, step clock m' (Send messageContent) = m')
  /\ forall r,
       ok r = true ->
       let m'' := steps clock m
                    [ Send mc;
                      Settle (List.length (inflight m)) (Fetched (inl r));
                      Clear ] in
       isLoading (state m'') = true
       /\ welcome (state m'') = true
       /\ spinner (state m'') = false
       /\ clearButton (state m'') = false
       /\ submitDisabled (state m'') = true
       /\ List.length (inflight m'') = S (List.length (inflight m))
       /\ forall messageContent, step clock m'' (Send messageContent) = m''.
Proof.
  intros Hc Hl m'. subst m'.
  destruct (SessionFacts.send_accepted clock m mc Hc Hl) as (k & Hsend & Hk).
  assert (Hview : forall s n l w,
             let M := step clock
                        {| state := set_isLoading true (set_input [] s);
                           reads := n;
                           inflight := l ++ [ {| origin := Chat; waiting := w |} ] |}
                        Clear in
             isLoading (state M) = true
             /\ welcome (state M) = true
             /\ spinner (state M) = false
             /\ clearButton (state M) = false
             /\ submitDisabled (state M) = true
             /\ List.length (inflight M) = S (List.length l)
             /\ forall messageContent, step clock M (Send messageContent) = M).
  { intros s n l w M. subst M. rewrite SessionFacts.step_Clear.
    cbn [state inflight].
    split; [reflexivity |]. split; [reflexivity |]. split; [reflexivity |].
    split; [reflexivity |]. split; [reflexivity |].
    split; [rewrite length_app; cbn; lia |].
    intros messageContent. apply SessionFacts.send_rejected. right. reflexivity. }
  cbn [steps fold_left]. rewrite Hsend.
  destruct (Hview (appended
                     (user_message (clock (reads m))
                        (content_of mc (input (state m))) (clock (S (reads m))))
                     (state m))
              (S (S (reads m))) (inflight m)
              (OnFetch chat_url
                 (Some (chat_init (content_of mc (input (state m)))
                          (selectedModel (state m)))) k))
    as (H1 & H2 & H3 & H4 & H5 & H6 & H7).
  split; [exact H1 |]. split; [exact H2 |]. split; [exact H3 |].
  split; [exact H4 |]. split; [exact H5 |]. split; [exact H6 |].
  split; [exact H7 |].
  intros r Hok.
  match goal with
  | |- context [step clock {| state := ?s; reads := ?n;
                              inflight := ?l ++ [ {| origin := Chat;
                                                     waiting := OnFetch ?url ?init k |} ] |}
                  (Settle _ (Fetched (inl r)))] =>
      destruct (SessionFacts.settle_success clock s n l url init k r
                  (inl VNull) Hk Hok) as (k2 & -> & _)
  end.
  exact (Hview _ _ _ _).
Qed.

(** X19.  As long as the chat is not cleared, the dots are shown exactly
    while [isLoading] is true, and the welcome section is never shown while
    a call waits. *)
Theorem spinner_iff_loading (es : list Event) :
  forallb (fun e => negb (is_Clear e)) es = true ->
  let s := state (steps clock initial es) in
  spinner s = isLoading s
  /\ (welcome s = true -> isLoading s = false).
Proof.
  intros Hes s.
  destruct (ReachFacts.no_clear_settled_roles clock es Hes) as [k Hk].
  unfold roles in Hk. fold s in Hk.
  unfold spinner, transcript, welcome.
  destruct (isLoading s) eqn:Hl.
  - destruct (messages s) as [| msg rest].
    + destruct k; discriminate Hk.
    + split; [reflexivity | discriminate].
  - split; [apply andb_false_r | reflexivity].
Qed.

End Clock.

End ViewFacts.

(* ================================================================= *)
(** ** Properties of the page and the bridge together *)

Module TogetherFacts.
Import Session Answers.

#[local] Arguments page_request : simpl never.

Lemma jsstring_eqb_refl (a : jsstring) : jsstring_eqb a a = true.
Proof. unfold jsstring_eqb. destruct (list_eq_dec N.eq_dec a a); congruence. Qed.

Lemma get_first (k : jsstring) (v : value) (rest : list (jsstring * value)) :
  get (VObject ((k, v) :: rest)) k = inl v.
Proof. cbn. rewrite jsstring_eqb_refl. reflexivity. Qed.

(** The request of the page passes the validation of the bridge. *)
Lemma page_request_accepted (content selectedModel : jsstring) :
  content <> [] ->
  Bridge.accepted (page_request content selectedModel)
    (VString content) (VString selectedModel).
Proof.
  intros Hc. unfold Bridge.accepted, page_request.
  split; [apply get_first |]. split; [reflexivity |].
  split; [destruct content; [congruence | reflexivity] |].
  split; reflexivity.
Qed.

(** X21.  The request that the page sends for a non-empty content always
    passes the validation of the bridge: the bridge never answers it 400,
    and it forwards the content as the prompt and the selected model as the
    model, so the default model of the bridge is never used for the page. *)
Theorem page_request_is_forwarded (env : Bridge.Env) (content selectedModel : jsstring) :
  content <> [] ->
  Bridge.request_json env = inl (page_request content selectedModel) ->
  body (chat_init content selectedModel) = Some (page_request content selectedModel)
  /\ snd (Bridge.run env Bridge.POST) =
       [ (Bridge.generate_url,
          Bridge.generate_init (VString selectedModel) (VString content)) ]
  /\ fst (Bridge.run env Bridge.POST) <> inl bad_request.
Proof.
  intros Hc Hb. split; [reflexivity |].
  assert (Hacc := page_request_accepted content selectedModel Hc).
  destruct Hacc as (Hm & Hmo & _).
  destruct content as [| c rest]; [congruence |].
  unfold Bridge.POST. cbn. rewrite Hb. cbn.
  unfold Bridge.destructure. rewrite Hm, Hmo. cbn.
  destruct (Bridge.upstream env _ _) as [r | e]; cbn; [| split; [reflexivity | discriminate]].
  destruct (ok r); cbn.
  - destruct (Bridge.response_json env r) as [data | e]; cbn;
      [| split; [reflexivity | discriminate]].
    destruct (get data (lit "response")); cbn; split; try reflexivity; discriminate.
  - destruct (Bridge.response_text env r); cbn; split; try reflexivity; discriminate.
Qed.

Section Clock.
Variable clock : nat -> Z.

(** The page receives the answer [res] of the handler for the call it
    just made. *)
Lemma answer_delivered (m : Machine) (mc : option jsstring) (res : Bridge.NextResponse) :
  content_of mc (input (state m)) <> [] ->
  isLoading (state m) = false ->
  let i := List.length (inflight m) in
  let n := S (S (reads m)) in
  let m' := steps clock m (Send mc :: delivered i res) in
  let reply :=
    if ok {| status := Bridge.http_status res |}
    then reply_to clock (inl (Bridge.payload res)) n
    else error_message (clock n) (clock (S n)) in
  messages (state m') =
    messages (state m)
    ++ [ user_message (clock (reads m)) (content_of mc (input (state m)))
           (clock (S (reads m)));
         reply ]
  /\ isLoading (state m') = false
  /\ inflight m' = inflight m.
Proof.
  intros Hc Hl i n m' reply. subst i n m' reply.
  destruct (SessionFacts.send_accepted clock m mc Hc Hl) as (k & Hsend & Hk).
  unfold delivered. cbn [steps fold_left]. rewrite Hsend.
  destruct (ok {| status := Bridge.http_status res |}) eqn:Hok.
  - cbn [fold_left].
    match goal with
    | |- context [step clock {| state := ?s; reads := ?n; inflight := ?l ++ [ {| origin := Chat; waiting := OnFetch ?url ?init k |} ] |}
                    (Settle _ (Fetched (inl ?r)))] =>
        destruct (SessionFacts.settle_success clock s n l url init k r
                    (inl (Bridge.payload res)) Hk Hok)
          as (k2 & Hfetched & Hparsed);
        rewrite Hfetched; destruct (Hparsed s n) as (n' & Hdone); rewrite Hdone
    end.
    cbn. rewrite <- app_assoc. repeat split.
  - cbn [fold_left].
    rewrite (SessionFacts.settle_failure clock _ _ _ _ _ k
               (inl {| status := Bridge.http_status res |}) Hk Hok).
    cbn. rewrite <- app_assoc. repeat split.
Qed.

(** X22.  The page and the bridge together, when the upstream answers with
    a success status and a JSON body whose [response] is a string or is
    missing: the exchange ends with the user message followed by one
    assistant message, whose content is that string when it is not empty
    and the text "No response received from the model" when it is empty
    or missing. *)
Theorem chat_round_trip (env : Bridge.Env) (m : Machine) (mc : option jsstring)
        (r : Response) (data generated : value) :
  let content := content_of mc (input (state m)) in
  let model := selectedModel (state m) in
  content <> [] ->
  isLoading (state m) = false ->
  Bridge.request_json env = inl (page_request content model) ->
  Bridge.upstream env Bridge.generate_url
    (Bridge.generate_init (VString model) (VString content)) = inl r ->
  ok r = true ->
  Bridge.response_json env r = inl data ->
  get data (lit "response") = inl generated ->
  generated = VUndefined \/ (exists g, generated = VString g) ->
  exists res,
    fst (Bridge.run env Bridge.POST) = inl res /\
    let i := List.length (inflight m) in
    let n := S (S (reads m)) in
    let m' := steps clock m (Send mc :: delivered i res) in
    messages (state m') =
      messages (state m)
      ++ [ user_message (clock (reads m)) content (clock (S (reads m)));
           assistant_message (clock n)
             (match generated with
              | VString (c :: rest) => generated
              | _ => VString (lit "No response received from the model")
              end)
             (clock (S n)) ]
    /\ isLoading (state m') = false
    /\ inflight m' = inflight m.
Proof.
  intros content model Hc Hl Hb Hup Hok Hj Hg Hty.
  exists (generated_text (js_or generated (VString Bridge.no_response))).
  split.
  - destruct (page_request_accepted content model Hc) as (Hm & Hmo & _).
    destruct content as [| c rest] eqn:Hcontent; [congruence |].
    unfold Bridge.POST. cbn. rewrite Hb. cbn.
    unfold Bridge.destructure. rewrite Hm, Hmo. cbn.
    rewrite Hup. cbn. rewrite Hok. cbn. rewrite Hj. cbn. rewrite Hg.
    reflexivity.
  - intros i n m'. subst i n m'.
    destruct (answer_delivered m mc
                (generated_text (js_or generated (VString Bridge.no_response)))
                Hc Hl) as (Hmsg & Hload & Hin).
    split; [| split; assumption].
    rewrite Hmsg. cbn [Bridge.http_status generated_text Bridge.payload].
    change (ok {| status := 200 |}) with true. cbv iota.
    unfold reply_to. rewrite get_first.
    destruct Hty as [-> | [g ->]]; [reflexivity |].
    destruct g; reflexivity.
Qed.

(** X23.  The page and the bridge together, when the upstream cannot be
    reached or answers with a non-success status: the bridge answers 500
    with its fixed failure text, and the exchange ends with the user
    message followed by the fallback message of the page; the failure text
    of the bridge is not shown. *)
Theorem upstream_failure_round_trip (env : Bridge.Env) (m : Machine)
        (mc : option jsstring) :
  let content := content_of mc (input (state m)) in
  let model := selectedModel (state m) in
  content <> [] ->
  isLoading (state m) = false ->
  Bridge.request_json env = inl (page_request content model) ->
  match Bridge.upstream env Bridge.generate_url
          (Bridge.generate_init (VString model) (VString content)) with
  | inl r => ok r = false
  | inr _ => True
  end ->
  exists res,
    fst (Bridge.run env Bridge.POST) = inl res /\
    let i := List.length (inflight m) in
    let n := S (S (reads m)) in
    let m' := steps clock m (Send mc :: delivered i res) in
    messages (state m') =
      messages (state m)
      ++ [ user_message (clock (reads m)) content (clock (S (reads m)));
           error_message (clock n) (clock (S n)) ]
    /\ isLoading (state m') = false
    /\ inflight m' = inflight m
    /\ res = server_error.
Proof.
  intros content model Hc Hl Hb Hup.
  exists server_error. split.
  - destruct (page_request_accepted content model Hc) as (Hm & Hmo & _).
    destruct content as [| c rest] eqn:Hcontent; [congruence |].
    unfold Bridge.POST. cbn. rewrite Hb. cbn.
    unfold Bridge.destructure. rewrite Hm, Hmo. cbn.
    destruct (Bridge.upstream env _ _) as [r | e]; cbn; [| reflexivity].
    rewrite Hup. cbn. destruct (Bridge.response_text env r); reflexivity.
  - intros i n m'. subst i n m'.
    destruct (answer_delivered m mc server_error Hc Hl) as (Hmsg & Hload & Hin).
    split; [exact Hmsg |]. split; [exact Hload |]. split; [exact Hin | reflexivity].
Qed.

End Clock.

End TogetherFacts.

(* ================================================================= *)
(** ** The further theorems at example inputs *)

Module MoreWitnesses.

Import Session Reach View Answers.

Lemma loading_until_settled_witness :
  isLoading (state (step Examples.clock Examples.waiting Clear)) = true
  /\ List.length (chat_calls (step Examples.clock Examples.waiting Clear)) = 1%nat.
Proof.
  exact (ReachFacts.loading_until_settled Examples.clock MoreExamples.to_waiting
           Clear eq_refl eq_refl).
Defined.

Lemma chat_settlement_witness :
  let m := Examples.waiting in
  let m' := step Examples.clock m
              (Settle 0 (Fetched (inr (TypeError (lit "fetch failed"))))) in
  (state m' = state m /\ List.length (chat_calls m') = 1%nat)
  \/ exists msg,
       role msg = assistant
       /\ state m' = set_isLoading false (appended msg (state m))
       /\ chat_calls m' = [].
Proof.
  exact (ReachFacts.chat_settlement Examples.clock MoreExamples.to_waiting 0
           (Fetched (inr (TypeError (lit "fetch failed")))) eq_refl).
Defined.

Lemma messages_append_only_witness :
  messages (state Examples.waiting) = messages (state Examples.typed_hi)
  \/ exists msg,
       messages (state Examples.waiting) =
         messages (state Examples.typed_hi) ++ [msg].
Proof.
  exact (ReachFacts.messages_append_only Examples.clock [Change (lit " hi ")]
           (Send None) eq_refl).
Defined.

Lemma roles_alternate_witness :
  exists k,
    roles Examples.waiting =
      exchanges k ++ (if isLoading (state Examples.waiting) then [user] else []).
Proof.
  exact (ReachFacts.roles_alternate Examples.clock MoreExamples.to_waiting eq_refl).
Defined.

Lemma state_writers_witness :
  isConnected (state (step Examples.clock Examples.waiting
                        (Settle 0 (Fetched (inl {| status := 500 |}))))) =
    isConnected (state Examples.waiting).
Proof.
  apply (ReachFacts.state_writers Examples.clock MoreExamples.to_waiting
           (Settle 0 (Fetched (inl {| status := 500 |})))).
  reflexivity.
Defined.

Lemma models_loading_witness :
  models (state (steps Examples.clock (step Examples.clock initial Mount)
                   [ Settle 1 (Fetched (inl {| status := 200 |}));
                     Settle 1 (Parsed (inl MoreExamples.one_model)) ])) =
    VArray [ VObject [ (lit "name", VString (lit "llama3:latest")) ] ].
Proof.
  destruct (ReachFacts.models_loading Examples.clock initial) as (Hok & _).
  exact (f_equal models
           (Hok {| status := 200 |} MoreExamples.one_model
              (VArray [ VObject [ (lit "name", VString (lit "llama3:latest")) ] ])
              eq_refl eq_refl)).
Defined.

Lemma POST_calls_once_witness :
  List.length (snd (Bridge.run Examples.env_hi Bridge.POST)) = 1%nat.
Proof.
  destruct (BridgeMore.POST_calls_once Examples.env_hi) as (_ & H200 & _).
  exact (H200 (VString (lit "hello")) eq_refl).
Defined.

Lemma POST_unprintable_request_witness :
  Bridge.run MoreExamples.env_unprintable Bridge.POST = (inl server_error, []).
Proof.
  apply (BridgeMore.POST_unprintable_request MoreExamples.env_unprintable
           (VObject [ (lit "message", VObject [ (lit "toString", VNull) ]) ])
           (VObject [ (lit "toString", VNull) ]) VUndefined);
    try reflexivity.
  right. reflexivity.
Defined.

Lemma POST_unreadable_reply_witness :
  Bridge.run MoreExamples.env_garbled Bridge.POST =
    (inl server_error,
     [ (Bridge.generate_url,
        Bridge.generate_init (VString (lit "llama3:latest")) (VString (lit "hi"))) ]).
Proof.
  apply (BridgeMore.POST_unreadable_reply MoreExamples.env_garbled
           (VObject [ (lit "message", VString (lit "hi")) ])
           (VString (lit "hi")) VUndefined {| status := 200 |});
    try reflexivity.
  - repeat split; reflexivity.
  - left. eexists. reflexivity.
Defined.

Lemma POST_success_iff_witness :
  exists v, fst (Bridge.run Examples.env_hi Bridge.POST) = inl (generated_text v).
Proof.
  apply (proj2 (BridgeMore.POST_success_iff Examples.env_hi)).
  exists (VObject [ (lit "message", VString (lit "hi"));
                    (lit "model", VString (lit "llama3:latest")) ]),
    (VString (lit "hi")), (VString (lit "llama3:latest")),
    {| status := 200 |}, Examples.hello, (VString (lit "hello")).
  repeat split; reflexivity.
Defined.

Lemma POST_refuses_falsy_message_witness :
  Bridge.run MoreExamples.env_zero_message Bridge.POST = (inl bad_request, []).
Proof.
  apply (BridgeMore.POST_refuses_falsy_message MoreExamples.env_zero_message
           (VObject [ (lit "message", VNumber 0) ]) (VNumber 0));
    reflexivity.
Defined.

Lemma POST_body_unreadable_witness :
  Bridge.run MoreExamples.env_null_body Bridge.POST = (inl server_error, []).
Proof.
  apply (BridgeMore.POST_body_unreadable MoreExamples.env_null_body).
  right. reflexivity.
Defined.


Lemma suggested_prompt_click_witness :
  messages (state (step Examples.clock initial
                     (Send (Some (lit "Help me write comprehensive documentation for this project"))))) =
    [ user_message 1000
        (lit "Help me write comprehensive documentation for this project") 1001 ].
Proof.
  destruct (ViewFacts.suggested_prompt_click Examples.clock initial
              {| title := lit "Documentation";
                 prompt := lit "Help me write comprehensive documentation for this project" |})
    as (_ & Hfree).
  - right. left. reflexivity.
  - destruct (Hfree eq_refl) as (Hm & _). exact Hm.
Defined.

Lemma cleared_while_waiting_witness :
  let m' := steps Examples.clock Examples.typed_hi [Send None; Clear] in
  isLoading (state m') = true /\ welcome (state m') = true
  /\ spinner (state m') = false.
Proof.
  assert (Hc : content_of None (input (state Examples.typed_hi)) <> [])
    by (vm_compute; discriminate).
  destruct (ViewFacts.cleared_while_waiting Examples.clock Examples.typed_hi None
              Hc eq_refl)
    as (H1 & H2 & H3 & _).
  split; [exact H1 | split; [exact H2 | exact H3]].
Defined.

Lemma spinner_iff_loading_witness :
  spinner (state Examples.waiting) = isLoading (state Examples.waiting).
Proof.
  exact (proj1 (ViewFacts.spinner_iff_loading Examples.clock
                  MoreExamples.to_waiting eq_refl)).
Defined.

Lemma page_request_is_forwarded_witness :
  snd (Bridge.run MoreExamples.env_page_empty Bridge.POST) =
    [ (Bridge.generate_url,
       Bridge.generate_init (VString (lit "llama3:latest")) (VString (lit "hi"))) ].
Proof.
  assert (Hne : lit "hi" <> []) by (vm_compute; discriminate).
  destruct (TogetherFacts.page_request_is_forwarded MoreExamples.env_page_empty
              (lit "hi") (lit "llama3:latest") Hne eq_refl)
    as (_ & Hcalls & _).
  exact Hcalls.
Defined.

Lemma chat_round_trip_witness :
  exists res,
    fst (Bridge.run MoreExamples.env_page_empty Bridge.POST) = inl res /\
    messages (state (steps Examples.clock Examples.typed_hi
                       (Send None :: delivered 0 res))) =
      [ user_message 1000 (lit "hi") 1001;
        assistant_message 1002
          (VString (lit "No response received from the model")) 1003 ].
Proof.
  assert (Hc : content_of None (input (state Examples.typed_hi)) <> [])
    by (vm_compute; discriminate).
  destruct (TogetherFacts.chat_round_trip Examples.clock MoreExamples.env_page_empty
              Examples.typed_hi None {| status := 200 |} Examples.empty_reply
              (VString []) Hc eq_refl eq_refl eq_refl eq_refl eq_refl eq_refl
              (or_intror (ex_intro _ [] eq_refl)))
    as (res & Hres & Hm & _).
  exists res. split; [exact Hres | exact Hm].
Defined.

Lemma upstream_failure_round_trip_witness :
  exists res,
    fst (Bridge.run MoreExamples.env_page_down Bridge.POST) = inl res /\
    messages (state (steps Examples.clock Examples.typed_hi
                       (Send None :: delivered 0 res))) =
      [ user_message 1000 (lit "hi") 1001; error_message 1002 1003 ].
Proof.
  assert (Hc : content_of None (input (state Examples.typed_hi)) <> [])
    by (vm_compute; discriminate).
  destruct (TogetherFacts.upstream_failure_round_trip Examples.clock
              MoreExamples.env_page_down Examples.typed_hi None Hc eq_refl eq_refl I)
    as (res & Hres & Hm & _).
  exists res. split; [exact Hres | exact Hm].
Defined.

End MoreWitnesses.

(* ================================================================= *)
(** ** The ids of the messages *)

Lemma lit_inj (s s' : string) : lit s = lit s' -> s = s'.
Proof.
  unfold lit. intros H.
  rewrite <- (string_of_list_ascii_of_string s),
          <- (string_of_list_ascii_of_string s').
  f_equal.
  revert H. generalize (list_ascii_of_string s') as l'.
  generalize (list_ascii_of_string s) as l.
  induction l as [| a l IH]; intros [| a' l'] H; try discriminate; [reflexivity |].
  simpl in H. injection H as Ha Hl.
  f_equal; [| apply IH, Hl].
  rewrite <- (ascii_N_embedding a), <- (ascii_N_embedding a'), Ha. reflexivity.
Qed.

Lemma to_int_not_nil (z : Z) :
  Z.to_int z <> Decimal.Pos Decimal.Nil /\ Z.to_int z <> Decimal.Neg Decimal.Nil.
Proof.
  destruct z as [| p | p]; cbn; split; try discriminate;
    intros H; injection H as H;
    exact (DecimalPos.Unsigned.to_uint_nonnil p H).
Qed.

(** Distinct integers print differently. *)
Lemma number_toString_inj (n n' : Z) :
  number_toString n = number_toString n' -> n = n'.
Proof.
  unfold number_toString. intros H. apply lit_inj in H.
  apply DecimalZ.to_int_inj.
  destruct (to_int_not_nil n) as [H1 H2].
  destruct (to_int_not_nil n') as [H1' H2'].
  pose proof (NilZero.isi (Z.to_int n) H1 H2) as Hn.
  pose proof (NilZero.isi (Z.to_int n') H1' H2') as Hn'.
  rewrite H in Hn. rewrite Hn in Hn'. injection Hn' as ->. reflexivity.
Qed.

Module IdFacts.
Import Session.

Section Clock.
Variable clock : nat -> Z.

Lemma reply_to_id (a : result value) (n : nat) :
  id (reply_to clock a n) = number_toString (clock n + 1)
  \/ id (reply_to clock a n) = number_toString (clock (S n) + 1).
Proof.
  unfold reply_to. destruct a as [data | e]; [| left; reflexivity].
  destruct (get data (lit "response")); [left | right]; reflexivity.
Qed.

(** X24.  The two messages of an exchange never share an id when the
    clock does not run backwards: the user message is named by the time of
    the submit and the answering message, the generated one or the
    fallback, by a later time plus one. *)
Theorem exchange_ids_distinct (m : Machine) (mc : option jsstring) :
  content_of mc (input (state m)) <> [] ->
  isLoading (state m) = false ->
  (forall i j, (i <= j)%nat -> clock i <= clock j) ->
  let i := List.length (inflight m) in
  (forall r a,
      ok r = true ->
      exists u reply,
        messages (state (steps clock m
                           [Send mc; Settle i (Fetched (inl r)); Settle i (Parsed a)])) =
          messages (state m) ++ [u; reply]
        /\ id u <> id reply)
  /\ (forall a,
        match a with inl r => ok r = false | inr _ => True end ->
        exists u reply,
          messages (state (steps clock m [Send mc; Settle i (Fetched a)])) =
            messages (state m) ++ [u; reply]
          /\ id u <> id reply).
Proof.
  intros Hc Hl Hmono i. subst i.
  destruct (SessionFacts.send_accepted clock m mc Hc Hl) as (k & Hsend & Hk).
  assert (Hdiff : forall j, (reads m <= j)%nat ->
                    number_toString (clock (reads m)) <> number_toString (clock j + 1)).
  { intros j Hj Heq. apply number_toString_inj in Heq.
    pose proof (Hmono (reads m) j Hj). lia. }
  split.
  - intros r a Hok. cbn [steps fold_left]. rewrite Hsend.
    match goal with
    | |- context [step clock {| state := ?s; reads := ?n; inflight := ?l ++ [ {| origin := Chat; waiting := OnFetch ?url ?init k |} ] |}
                    (Settle _ (Fetched (inl r)))] =>
        destruct (SessionFacts.settle_success clock s n l url init k r a Hk Hok)
          as (k2 & Hfetched & Hparsed);
        rewrite Hfetched; destruct (Hparsed s n) as (n' & Hdone); rewrite Hdone
    end.
    do 2 eexists. split; [cbn; rewrite <- app_assoc; reflexivity |].
    cbn [id user_message].
    destruct (reply_to_id a (S (S (reads m)))) as [-> | ->]; apply Hdiff; lia.
  - intros a Ha. cbn [steps fold_left]. rewrite Hsend.
    rewrite (SessionFacts.settle_failure clock _ _ _ _ _ k a Hk Ha).
    do 2 eexists. split; [cbn; rewrite <- app_assoc; reflexivity |].
    cbn [id user_message error_message]. apply Hdiff. lia.
Qed.

(** X25.  Ids are not unique across exchanges: when the next message is
    sent exactly one millisecond after the time read for the last answer,
    the answer and the new user message carry the same id, the key under
    which both are listed. *)
Theorem ids_can_repeat (m : Machine) (mc : option jsstring)
        (next : jsstring) (e : exn) :
  content_of mc (input (state m)) <> [] ->
  isLoading (state m) = false ->
  next <> [] ->
  clock (4 + reads m) = clock (2 + reads m) + 1 ->
  let i := List.length (inflight m) in
  exists u reply u',
    messages (state (steps clock m
                       [Send mc; Settle i (Fetched (inr e)); Send (Some next)])) =
      messages (state m) ++ [u; reply; u']
    /\ role reply = assistant /\ role u' = user
    /\ id reply = id u'.
Proof.
  intros Hc Hl Hnext Hclock i. subst i.
  destruct (SessionFacts.send_accepted clock m mc Hc Hl) as (k & Hsend & Hk).
  cbn [steps fold_left]. rewrite Hsend.
  rewrite (SessionFacts.settle_failure clock _ _ _ _ _ k (inr e) Hk I).
  match goal with
  | |- context [step clock ?M (Send (Some next))] =>
      destruct (SessionFacts.send_accepted clock M (Some next)) as (k' & -> & _)
  end.
  - destruct next; [congruence | discriminate].
  - reflexivity.
  - do 3 eexists. split; [cbn; rewrite <- !app_assoc; reflexivity |].
    split; [reflexivity |]. split; [reflexivity |].
    cbn [id user_message error_message reads]. cbn in Hclock.
    rewrite Hclock. reflexivity.
Qed.

End Clock.

Lemma exchange_ids_distinct_witness :
  exists u reply,
    messages (state (steps Examples.clock Examples.typed_hi
                       [ Send None;
                         Settle 0 (Fetched (inl {| status := 200 |}));
                         Settle 0 (Parsed (inl Examples.hello)) ])) =
      messages (state Examples.typed_hi) ++ [u; reply]
    /\ id u <> id reply.
Proof.
  assert (Hc : content_of None (input (state Examples.typed_hi)) <> [])
    by (vm_compute; discriminate).
  assert (Hmono : forall i j, (i <= j)%nat -> Examples.clock i <= Examples.clock j)
    by (intros i j Hij; unfold Examples.clock; lia).
  destruct (exchange_ids_distinct Examples.clock Examples.typed_hi None
              Hc eq_refl Hmono) as (Hok & _).
  exact (Hok {| status := 200 |} (inl Examples.hello) eq_refl).
Defined.

Lemma ids_can_repeat_witness :
  exists u reply u',
    messages (state (steps MoreExamples.coarse_clock Examples.typed_hi
                       [ Send None;
                         Settle 0 (Fetched (inr (TypeError (lit "fetch failed"))));
                         Send (Some (lit "again")) ])) =
      messages (state Examples.typed_hi) ++ [u; reply; u']
    /\ role reply = assistant /\ role u' = user
    /\ id reply = id u'.
Proof.
  assert (Hc : content_of None (input (state Examples.typed_hi)) <> [])
    by (vm_compute; discriminate).
  assert (Hnext : lit "again" <> []) by (vm_compute; discriminate).
  exact (ids_can_repeat MoreExamples.coarse_clock Examples.typed_hi None
           (lit "again") (TypeError (lit "fetch failed"))
           Hc eq_refl Hnext eq_refl).
Defined.

End IdFacts.
